(** * vertexhub-cli: the sanitizers, the settings merge and the start/stop flows

    A shallow embedding of [bin/vertexhub.js] (the hardened revision with
    [sanitizePort], [sanitizeForTerminal], [stopProxy], ...).

    JavaScript strings are sequences of UTF-16 code units; they are modelled
    as [list N], one number per code unit.  The regular expression of
    [sanitizeForTerminal] has no [u] flag and [String.prototype.trim] and
    [parseInt] both work code unit by code unit, so nothing here depends on
    surrogate pairs. *)

From Stdlib Require Import ZArith NArith List String Ascii Lia Bool.
From stdpp Require Import base decidable option list gmap.

Set Warnings "-register-all".

Local Open Scope Z_scope.
Local Open Scope list_scope.

(** ** Strings *)

Abbreviation jsstring := (list N).

(** A string literal of the source, code unit by code unit (the literals of
    the source that are used below are ASCII). *)
Definition js (s : string) : list N :=
  List.map N_of_ascii (list_ascii_of_string s).

Module Chars.

(** WhiteSpace and LineTerminator of ECMAScript: what [trim] removes and
    what [parseInt] skips at the start of its input. *)
Definition isWhiteSpace (c : N) : bool :=
  ((9 <=? c) && (c <=? 13) (* TAB LF VT FF CR *)
   || (c =? 32) || (c =? 160) || (c =? 0x1680)
   || (0x2000 <=? c) && (c <=? 0x200A)
   || (c =? 0x2028) || (c =? 0x2029) || (c =? 0x202F) || (c =? 0x205F)
   || (c =? 0x3000) || (c =? 0xFEFF))%N.

(** The digits of radix 10. *)
Definition isDigit (c : N) : bool := ((48 <=? c) && (c <=? 57))%N.

Definition digitValue (c : N) : Z := Z.of_N c - 48.

End Chars.
Import Chars.

(** [String.prototype.trim] is TrimString(start+end). *)
Fixpoint trimStart (s : list N) : list N :=
  match s with
  | c :: r => if isWhiteSpace c then trimStart r else s
  | [] => []
  end.

Fixpoint trimEnd (s : list N) : list N :=
  match s with
  | [] => []
  | c :: r =>
      match trimEnd r with
      | [] => if isWhiteSpace c then [] else [c]
      | r' => c :: r'
      end
  end.

Definition trim (s : list N) : list N := trimEnd (trimStart s).

Fixpoint takeDigits (s : list N) : list N :=
  match s with
  | c :: r => if isDigit c then c :: takeDigits r else []
  | [] => []
  end.

(** The mathematical value of a run of decimal digits. *)
Definition digitsValue (ds : list N) : Z :=
  fold_left (fun acc c => 10 * acc + digitValue c) ds 0.

(** [parseInt(string, 10)]: skip leading white space, read an optional sign,
    then the longest run of decimal digits; [None] stands for NaN.  The
    result is an exact integer here; the runtime rounds it to a double, which
    is the identity up to 2^53 and monotone above, so the comparisons with 1
    and 65535 made by [sanitizePort] give the same answers. *)
Definition parseInt10 (s : list N) : option Z :=
  let str := trimStart s in
  let '(sign, str) :=
    match str with
    | c :: r =>
        if (c =? 45)%N then (-1, r)        (* minus sign *)
        else if (c =? 43)%N then (1, r)    (* plus sign *)
        else (1, str)
    | [] => (1, str)
    end in
  match takeDigits str with
  | [] => None
  | ds => Some (sign * digitsValue ds)
  end.

(** [String(num)] for an integer-valued number of the safe range: the decimal
    digits without leading zeros, after a minus sign for a negative one. *)
Fixpoint decDigits (fuel : nat) (n : Z) (acc : list N) : list N :=
  match fuel with
  | O => acc
  | S fuel =>
      let acc := Z.to_N (48 + n mod 10) :: acc in
      if n / 10 =? 0 then acc else decDigits fuel (n / 10) acc
  end.

Definition decimal (n : Z) : list N :=
  decDigits (S (Z.to_nat (Z.log2 n))) n [].

Definition Number_toString (n : Z) : list N :=
  if n <? 0 then 45%N :: decimal (- n) else decimal n.

(** ** Security helpers *)

(** [sanitizePort(port)].  The argument is [process.env.VERTEXHUB_PORT]:
    a string, or [undefined] ([None]) when the variable is unset.  The result
    is [null] ([None]) or the port as a string. *)
Definition sanitizePort (port : option (list N)) : option (list N) :=
  match port with
  | None => None
  | Some [] => None                                   (* !port *)
  | Some port =>
      match parseInt10 port with
      | None => None                                  (* isNaN(num) *)
      | Some num =>
          if (num <? 1) || (num >? 65535)
             || negb (bool_decide (Number_toString num = trim port))
          then None
          else Some (Number_toString num)
      end
  end.

(** A character class of a regular expression, as its list of ranges, and
    [str.replace(/[class]/g, '')], which deletes every code unit the class
    matches. *)
Definition classMatches (cls : list (N * N)) (c : N) : bool :=
  existsb (fun '(lo, hi) => (lo <=? c) && (c <=? hi))%N cls.

Definition deleteAll (cls : list (N * N)) (s : list N) : list N :=
  List.filter (fun c => negb (classMatches cls c)) s.

(** [sanitizeForTerminal(str)], with the class
    [[\x00-\x08\x0b\x0c\x0e-\x1f\x7f]]. *)
Definition controlClass : list (N * N) :=
  [(0x00, 0x08); (0x0b, 0x0b); (0x0c, 0x0c); (0x0e, 0x1f); (0x7f, 0x7f)]%N.

Definition sanitizeForTerminal (str : list N) : list N :=
  deleteAll controlClass str.

(** ** Config *)

Definition DEFAULT_PORT : list N := js "8090".

(** [sanitizePort(process.env.VERTEXHUB_PORT) || DEFAULT_PORT]; the empty
    string is the one falsy string. *)
Definition PROXY_PORT (env : gmap (list N) (list N)) : list N :=
  match sanitizePort (env !! js "VERTEXHUB_PORT") with
  | None | Some [] => DEFAULT_PORT
  | Some port => port
  end.

Definition PROXY_URL (env : gmap (list N) (list N)) : list N :=
  js "http://127.0.0.1:" ++ PROXY_PORT env.

(** [Array.prototype.includes] on strings. *)
Definition includes (l : list (list N)) (x : list N) : bool :=
  existsb (fun y => bool_decide (y = x)) l.

(** The values of [new Set(l)], in insertion order. *)
Definition Set_values (l : list (list N)) : list (list N) :=
  fold_left (fun acc x => if includes acc x then acc else acc ++ [x]) l [].

(** [cmdAccounts]: only known safe subcommands are passed on. *)
Definition allowedSubcommands : list (list N) :=
  [js "add"; js "list"; js "remove"; js "verify"].

Definition subArgs (argv : list (list N)) : list (list N) :=
  List.filter (fun arg => includes allowedSubcommands arg) (skipn 3 argv).

(** ** JSON values

    What [JSON.parse] returns.  A number is kept as the decimal literal it was
    read from, [(-1)^neg * m * 10^e]; the runtime rounds it to a double, and
    the only thing this program observes of a number is whether it is zero
    after that rounding ([numberIsZero]).  An object is a finite map from
    property names to values: nothing below depends on property order. *)
Inductive json :=
| JNull
| JBool (b : bool)
| JNum (neg : bool) (m : N) (e : Z)
| JStr (s : list N)
| JArr (l : list json)
| JObj (o : gmap (list N) json).

Inductive jstype := T_object | T_boolean | T_number | T_string.

Definition typeof (v : json) : jstype :=
  match v with
  | JNull | JArr _ | JObj _ => T_object
  | JBool _ => T_boolean
  | JNum _ _ _ => T_number
  | JStr _ => T_string
  end.

Definition jstype_eqb (a b : jstype) : bool :=
  match a, b with
  | T_object, T_object | T_boolean, T_boolean
  | T_number, T_number | T_string, T_string => true
  | _, _ => false
  end.

Definition isNull (v : json) : bool :=
  match v with JNull => true | _ => false end.

Definition Array_isArray (v : json) : bool :=
  match v with JArr _ => true | _ => false end.

(** A decimal [m * 10^e] rounds to (plus or minus) zero exactly when it is at
    most 2^-1075, half of the least positive double. *)
Definition numberIsZero (m : N) (e : Z) : bool :=
  (m =? 0)%N || ((e <? 0) && (Z.of_N m * 2 ^ 1075 <=? 10 ^ (- e))).

(** ToBoolean; [None] is [undefined], the value of a missing property. *)
Definition ToBoolean (v : option json) : bool :=
  match v with
  | None | Some JNull => false
  | Some (JBool b) => b
  | Some (JNum _ m e) => negb (numberIsZero m e)
  | Some (JStr s) => match s with [] => false | _ => true end
  | Some (JArr _) | Some (JObj _) => true
  end.

(** The own enumerable properties of a value, which is what an object spread
    [{...v}] copies: the properties of an object, the elements of an array
    and the code units of a string under their indices, nothing for the
    other primitives. *)
Definition indexed {A} (f : A → json) (l : list A) : gmap (list N) json :=
  list_to_map (imap (fun i x => (decimal (Z.of_nat i), f x)) l).

Definition ownProperties (v : json) : gmap (list N) json :=
  match v with
  | JObj o => o
  | JArr l => indexed (fun x => x) l
  | JStr s => indexed (fun c => JStr [c]) s
  | JNull | JBool _ | JNum _ _ _ => ∅
  end.

(** A reference implementation of [JSON.parse] (ECMA-404): [None] stands for
    the SyntaxError it throws.  The program below is parametrised by the
    parser; this one instantiates it on concrete file contents. *)
Module JSON.

Definition isWs (c : N) : bool :=
  ((c =? 32) || (c =? 9) || (c =? 10) || (c =? 13))%N.

Fixpoint skipWs (s : list N) : list N :=
  match s with
  | c :: r => if isWs c then skipWs r else s
  | [] => []
  end.

Definition hexValue (c : N) : option N :=
  (if (48 <=? c) && (c <=? 57) then Some (c - 48)
   else if (65 <=? c) && (c <=? 70) then Some (c - 55)
   else if (97 <=? c) && (c <=? 102) then Some (c - 87)
   else None)%N.

Definition escape (c : N) : option N :=
  (if c =? 34 then Some 34            (* quotation mark *)
   else if c =? 92 then Some 92       (* reverse solidus *)
   else if c =? 47 then Some 47       (* solidus *)
   else if c =? 98 then Some 8        (* b *)
   else if c =? 102 then Some 12      (* f *)
   else if c =? 110 then Some 10      (* n *)
   else if c =? 114 then Some 13      (* r *)
   else if c =? 116 then Some 9       (* t *)
   else None)%N.

(** The characters of a string after its opening quotation mark, up to and
    including the closing one. *)
Fixpoint stringBody (s acc : list N) : option (list N * list N) :=
  match s with
  | [] => None
  | c :: r =>
      if (c =? 34)%N then Some (rev acc, r)
      else if (c =? 92)%N then
        match r with
        | [] => None
        | e :: r =>
            if (e =? 117)%N then      (* u and four hexadecimal digits *)
              match r with
              | h3 :: h2 :: h1 :: h0 :: r =>
                  match hexValue h3, hexValue h2, hexValue h1, hexValue h0 with
                  | Some a, Some b, Some c, Some d =>
                      stringBody r ((a * 4096 + b * 256 + c * 16 + d)%N :: acc)
                  | _, _, _, _ => None
                  end
              | _ => None
              end
            else
              match escape e with
              | Some x => stringBody r (x :: acc)
              | None => None
              end
        end
      else if (c <? 32)%N then None
      else stringBody r (c :: acc)
  end.

Definition stripPrefix (lit s : list N) : option (list N) :=
  if bool_decide (take (length lit) s = lit)
  then Some (drop (length lit) s) else None.

(** number = [-] int [frac] [exp] *)
Definition number (s : list N) : option (json * list N) :=
  let '(neg, s) :=
    match s with
    | c :: r => if (c =? 45)%N then (true, r) else (false, s)
    | [] => (false, s)
    end in
  '(int, s) ←
    match s with
    | c :: r =>
        if (c =? 48)%N then Some ([c], r)
        else if isDigit c
             then Some (takeDigits s, drop (length (takeDigits s)) s)
             else None
    | [] => None
    end;
  '(frac, s) ←
    match s with
    | c :: r =>
        if (c =? 46)%N then
          match takeDigits r with
          | [] => None
          | ds => Some (ds, drop (length ds) r)
          end
        else Some ([], s)
    | [] => Some ([], s)
    end;
  '(exp, s) ←
    match s with
    | c :: r =>
        if (c =? 101)%N || (c =? 69)%N then
          let '(sign, r) :=
            match r with
            | c :: r' =>
                if (c =? 45)%N then (-1, r')
                else if (c =? 43)%N then (1, r')
                else (1, r)
            | [] => (1, r)
            end in
          match takeDigits r with
          | [] => None
          | ds => Some (sign * digitsValue ds, drop (length ds) r)
          end
        else Some (0, s)
    | [] => Some (0, s)
    end;
  Some (JNum neg (Z.to_N (digitsValue (int ++ frac)))
             (exp - Z.of_nat (length frac)), s).

Fixpoint value (fuel : nat) (s : list N) : option (json * list N) :=
  match fuel with
  | O => None
  | S fuel =>
      match skipWs s with
      | [] => None
      | c :: r =>
          if (c =? 123)%N then              (* left curly bracket *)
            match skipWs r with
            | c' :: r' =>
                if (c' =? 125)%N then Some (JObj ∅, r')
                else members fuel ∅ r
            | [] => None
            end
          else if (c =? 91)%N then          (* left square bracket *)
            match skipWs r with
            | c' :: r' =>
                if (c' =? 93)%N then Some (JArr [], r')
                else elements fuel [] r
            | [] => None
            end
          else if (c =? 34)%N then
            '(str, r) ← stringBody r []; Some (JStr str, r)
          else if (c =? 116)%N then
            r ← stripPrefix (js "true") (c :: r); Some (JBool true, r)
          else if (c =? 102)%N then
            r ← stripPrefix (js "false") (c :: r); Some (JBool false, r)
          else if (c =? 110)%N then
            r ← stripPrefix (js "null") (c :: r); Some (JNull, r)
          else number (c :: r)
      end
  end
with elements (fuel : nat) (acc : list json) (s : list N)
  : option (json * list N) :=
  match fuel with
  | O => None
  | S fuel =>
      '(v, r) ← value fuel s;
      match skipWs r with
      | c :: r =>
          if (c =? 44)%N then elements fuel (v :: acc) r
          else if (c =? 93)%N then Some (JArr (rev (v :: acc)), r)
          else None
      | [] => None
      end
  end
with members (fuel : nat) (acc : gmap (list N) json) (s : list N)
  : option (json * list N) :=
  match fuel with
  | O => None
  | S fuel =>
      match skipWs s with
      | c :: r =>
          if (c =? 34)%N then
            '(k, r) ← stringBody r [];
            match skipWs r with
            | c :: r =>
                if (c =? 58)%N then
                  '(v, r) ← value fuel r;
                  match skipWs r with
                  | c :: r =>
                      if (c =? 44)%N then members fuel (<[k:=v]> acc) r
                      else if (c =? 125)%N
                           then Some (JObj (<[k:=v]> acc), r)
                           else None
                  | [] => None
                  end
                else None
            | [] => None
            end
          else None
      | [] => None
      end
  end.

(** Every call of [value], [elements] and [members] but the first comes
    after at least one more character of the text has been read by one of
    the two calls before it, so twice its length is fuel enough. *)
Definition parse (text : list N) : option json :=
  '(v, r) ← value (2 * length text + 2) text;
  match skipWs r with
  | [] => Some v
  | _ => None
  end.

End JSON.

(** A JSON text written with apostrophes where the text has quotation marks. *)
Definition jsonText (s : string) : list N :=
  List.map (fun c => if (c =? 39)%N then 34%N else c) (js s).

(** ** The host: what the process finds around it *)

(** What a path names at the time the process looks at it. *)
Inductive node :=
| Absent                       (* existsSync is false *)
| Unreadable                   (* exists, readFileSync throws: a directory, no permission *)
| File (text : list N).

Record host := {
  env : gmap (list N) (list N);        (* process.env *)
  argv : list (list N);                (* process.argv *)
  homedir : list N;                    (* os.homedir() *)
  PROXY_DIR : list N;                  (* resolved next to the installation *)
  fs : list N → node;                  (* the file system, by path *)
  nodeBin : option (list N);           (* what getNodeBin() finds *)
  health : nat → bool;                 (* the n-th probe of the health endpoint *)
  execFails : list N → bool;           (* the commands execSync throws on *)
}.

(** [path.join] of path segments that need no normalisation. *)
Definition join (segments : list (list N)) : list N :=
  match segments with
  | [] => js "."
  | s :: rest => fold_left (fun acc x => acc ++ js "/" ++ x) rest s
  end.

Definition CLAUDE_CONFIG_DIR (h : host) : list N :=
  join [homedir h; js ".claude"].
Definition CLAUDE_SETTINGS_FILE (h : host) : list N :=
  join [CLAUDE_CONFIG_DIR h; js "settings.json"].
Definition CLAUDE_JSON_FILE (h : host) : list N :=
  join [homedir h; js ".claude.json"].

Definition existsSync (h : host) (p : list N) : bool :=
  match fs h p with Absent => false | _ => true end.

(** ** Effects *)

Inductive level := log | ok | warn | err.

Inductive message :=
| ProxyDirNotFound | CloneTheProxy | EntryPointNotFound | ProxyDirCorrupted
| NodeNotFound | InstallNode
| CouldNotParse (file : list N) | CreatingNewSettings
| SettingsConfigured | OnboardingBypassed
| StartingProxy (port : list N)
| ProxyAlreadyRunning (url : list N) | ProxyStarted (url : list N)
| ProxyFailedToStart | CheckProxyCommand (port : list N)
| LaunchingClaude
| StartBanner
| ProxyNotRunning | AccountsScriptNotFound (script : list N).

Record spawnOptions := {
  spawn_env : gmap (list N) (list N);
  spawn_cwd : option (list N);
  spawn_detached : bool;
}.

Inductive event :=
| Console (l : level) (m : message)
| ConsoleLog (m : message)             (* console.log of a fixed text *)
| StdoutWrite (s : list N)             (* process.stdout.write(s), console.log() *)
| MkdirSync (dir : list N)
| WriteFileSecure (file : list N) (doc : json)
    (* writeFileSecure(file, JSON.stringify(doc, null, 2)) *)
| Spawn (command : list N) (args : list (list N)) (opts : spawnOptions)
| ExecSync (command : list N) (failed : bool)
| Sleep (ms : Z)                       (* await new Promise(r => setTimeout(r, ms)) *)
| Probe (url : list N) (healthy : bool)
| Exit (code : Z).                     (* process.exit(code) *)

(** A computation of the process: from the number of health probes made so
    far to the events it performs, in order, and its result with the new
    number of probes; no result when the process has exited. *)
Definition M (A : Type) : Type := nat → list event * option (A * nat).

Definition ret {A} (a : A) : M A := fun n => ([], Some (a, n)).

Definition bind {A B} (m : M A) (f : A → M B) : M B :=
  fun n =>
    match m n with
    | (t, None) => (t, None)
    | (t, Some (a, n')) => let '(t', r) := f a n' in (t ++ t', r)
    end.

Declare Scope cli_scope.
Delimit Scope cli_scope with cli.
Notation "'do' x <- m ;; k" := (bind m (fun x => k))
  (at level 10, x name, m at level 99, k at level 200) : cli_scope.
Notation "m ;; k" := (bind m (fun _ => k))
  (at level 100, k at level 200, right associativity) : cli_scope.

Definition emit (e : event) : M unit := fun n => ([e], Some (tt, n)).
Definition exit {A} (code : Z) : M A := fun n => ([Exit code], None).

Definition when (b : bool) (m : M unit) : M unit := if b then m else ret tt.

Fixpoint forEach {A} (l : list A) (body : A → M unit) : M unit :=
  match l with
  | [] => ret tt
  | x :: l => (body x ;; forEach l body)%cli
  end.

Definition trace {A} (m : M A) : list event := fst (m O).
Definition outcome {A} (m : M A) : option A := fst <$> snd (m O).

(** ** The program *)

Section Program.

(** [JSON.parse] of the runtime; [None] when it throws. *)
Variable JSON_parse : list N → option json.
Variable h : host.

Local Open Scope cli_scope.

Local Abbreviation port := (PROXY_PORT (env h)).
Local Abbreviation url := (PROXY_URL (env h)).

(** [validateProxyDir()] *)
Definition validateProxyDir : M unit :=
  if negb (existsSync h (PROXY_DIR h)) then
    emit (Console err ProxyDirNotFound) ;;
    emit (Console err CloneTheProxy) ;;
    exit 1
  else if negb (existsSync h (join [PROXY_DIR h; js "src"; js "index.js"])) then
    emit (Console err EntryPointNotFound) ;;
    emit (Console err ProxyDirCorrupted) ;;
    exit 1
  else ret tt.

(** [requireNodeBin()] *)
Definition requireNodeBin : M (list N) :=
  match nodeBin h with
  | None =>
      emit (Console err NodeNotFound) ;;
      emit (Console err InstallNode) ;;
      exit 1
  | Some bin => ret bin
  end.

(** [isProxyRunning()]: one probe of the health endpoint; every failure of
    the request is the answer false. *)
Definition isProxyRunning : M bool :=
  fun n => ([Probe (url ++ js "/health") (health h n)], Some (health h n, S n)).

(** The [try { x = JSON.parse(readFileSync(file)) } catch (e) { ... }] of
    [configureClaudeSettings], after [let x = {}] and inside
    [if (existsSync(file))]: the value of [x] afterwards, and whether the
    handler ran. *)
Definition tryParse (file : list N) : json * bool :=
  match fs h file with
  | Absent => (JObj ∅, false)
  | Unreadable => (JObj ∅, true)
  | File text =>
      match JSON_parse text with
      | Some v => (v, false)
      | None => (JObj ∅, true)
      end
  end.

(** [if (typeof x !== 'object' || x === null || Array.isArray(x)) x = {}],
    and then the properties of [x]. *)
Definition ensurePlainObject (x : json) : gmap (list N) json :=
  if negb (jstype_eqb (typeof x) T_object) || isNull x || Array_isArray x
  then ∅
  else ownProperties x.

(** The settings document the merge starts from (lines 187-200). *)
Definition loadSettings : gmap (list N) json :=
  ensurePlainObject (fst (tryParse (CLAUDE_SETTINGS_FILE h))).

Definition fixedEnv : list (list N * json) :=
  [ (js "ANTHROPIC_AUTH_TOKEN", JStr (js "vertexhub-proxy"));
    (js "ANTHROPIC_BASE_URL", JStr url);
    (js "ANTHROPIC_MODEL", JStr (js "claude-opus-4-6-thinking"));
    (js "ANTHROPIC_DEFAULT_OPUS_MODEL", JStr (js "claude-opus-4-6-thinking"));
    (js "ANTHROPIC_DEFAULT_SONNET_MODEL", JStr (js "claude-sonnet-4-5-thinking"));
    (js "ANTHROPIC_DEFAULT_HAIKU_MODEL", JStr (js "claude-sonnet-4-5"));
    (js "CLAUDE_CODE_SUBAGENT_MODEL", JStr (js "claude-sonnet-4-5-thinking")) ].

(** An object literal [{...base, k1: v1, ..., kn: vn}]. *)
Definition objectLiteral (base : gmap (list N) json)
    (props : list (list N * json)) : gmap (list N) json :=
  fold_left (fun o '(k, v) => <[k:=v]> o) props base.

(** [settings.env = { ...(settings.env || {}), ANTHROPIC_AUTH_TOKEN: ... }] *)
Definition mergeEnv (settings : gmap (list N) json) : gmap (list N) json :=
  let old :=
    match settings !! js "env" with
    | Some v => if ToBoolean (Some v) then v else JObj ∅
    | None => JObj ∅
    end in
  <[js "env" := JObj (objectLiteral (ownProperties old) fixedEnv)]> settings.

(** [configureClaudeSettings()] *)
Definition configureClaudeSettings : M unit :=
  emit (MkdirSync (CLAUDE_CONFIG_DIR h)) ;;
  let '(settings, failed) := tryParse (CLAUDE_SETTINGS_FILE h) in
  when failed
    (emit (Console warn (CouldNotParse (CLAUDE_SETTINGS_FILE h))) ;;
     emit (Console warn CreatingNewSettings)) ;;
  let settings := ensurePlainObject settings in
  let settings := mergeEnv settings in
  emit (WriteFileSecure (CLAUDE_SETTINGS_FILE h) (JObj settings)) ;;
  emit (Console ok SettingsConfigured) ;;
  (* Ensure hasCompletedOnboarding is set *)
  let '(claudeJson, failed) := tryParse (CLAUDE_JSON_FILE h) in
  when failed
    (emit (Console warn (CouldNotParse (CLAUDE_JSON_FILE h)))) ;;
  let claudeJson := ensurePlainObject claudeJson in
  if negb (ToBoolean (claudeJson !! js "hasCompletedOnboarding")) then
    let claudeJson := <[js "hasCompletedOnboarding" := JBool true]> claudeJson in
    emit (WriteFileSecure (CLAUDE_JSON_FILE h) (JObj claudeJson)) ;;
    emit (Console ok OnboardingBypassed)
  else ret tt.

(** [startProxy()]; the listeners it installs on the child act only on what
    the child prints. *)
Definition startProxy : M unit :=
  validateProxyDir ;;
  do bin <- requireNodeBin ;;
  emit (Console log (StartingProxy port)) ;;
  emit (Spawn bin [join [PROXY_DIR h; js "src"; js "index.js"]]
          {| spawn_env :=
               <[js "HOST" := js "127.0.0.1"]> (<[js "PORT" := port]> (env h));
             spawn_cwd := Some (PROXY_DIR h);
             spawn_detached := true |}).

(** [stopProxy()] *)
Definition stopProxy : M unit :=
  let portsToFree := Set_values [js "8080"; port] in
  forEach portsToFree (fun p =>
    let command := js "fuser -k " ++ p ++ js "/tcp 2>/dev/null" in
    (* try { execSync(command) } catch { } *)
    emit (ExecSync command (execFails h command))) ;;
  emit (Sleep 2000).

(** The loop [for (let i = 0; i < 15; i++) { ... }] of [cmdStart], with
    [todo] iterations to go; the result is [started]. *)
Fixpoint waitForProxy (todo : nat) : M bool :=
  match todo with
  | O => ret false
  | S todo =>
      emit (Sleep 1000) ;;
      do running <- isProxyRunning ;;
      if running then ret true
      else emit (StdoutWrite (js ".")) ;; waitForProxy todo
  end.

(** [cmdStart()], up to the launch of the coding CLI. *)
Definition cmdStart : M unit :=
  emit (ConsoleLog StartBanner) ;;
  validateProxyDir ;;
  configureClaudeSettings ;;
  do running <- isProxyRunning ;;
  (if running then emit (Console ok (ProxyAlreadyRunning url))
   else
     startProxy ;;
     do started <- waitForProxy 15 ;;
     emit (StdoutWrite [10%N]) ;;
     (if negb started then
        emit (Console err ProxyFailedToStart) ;;
        emit (Console err (CheckProxyCommand port)) ;;
        exit 1
      else ret tt) ;;
     emit (Console ok (ProxyStarted url))) ;;
  emit (Console log LaunchingClaude) ;;
  emit (Spawn (js "claude") []
          {| spawn_env :=
               <[js "ANTHROPIC_AUTH_TOKEN" := js "vertexhub-proxy"]>
                 (<[js "ANTHROPIC_BASE_URL" := url]> (env h));
             spawn_cwd := None;
             spawn_detached := false |}).

(** [cmdAccounts()], up to the launch of the accounts manager. *)
Definition cmdAccounts : M unit :=
  do running <- isProxyRunning ;;
  (if negb running then emit (Console err ProxyNotRunning) ;; exit 1
   else ret tt) ;;
  validateProxyDir ;;
  do bin <- requireNodeBin ;;
  let accountsScript := join [PROXY_DIR h; js "src"; js "cli"; js "accounts.js"] in
  (if negb (existsSync h accountsScript) then
     emit (Console err (AccountsScriptNotFound accountsScript)) ;; exit 1
   else ret tt) ;;
  emit (Spawn bin (accountsScript :: subArgs (argv h))
          {| spawn_env := <[js "PORT" := port]> (env h);
             spawn_cwd := Some (PROXY_DIR h);
             spawn_detached := false |}).

End Program.

(** ** Notions the properties are stated with *)

(** [t] is the canonical decimal numeral of [n]: decimal digits only, and no
    leading zero (the numeral of zero is the single digit). *)
Definition canonicalDecimal (t : list N) (n : Z) : Prop :=
  t ≠ [] ∧ Forall (fun c => (48 ≤ c ≤ 57)%N) t
  ∧ (head t = Some 48%N → t = [48%N]) ∧ digitsValue t = n.

(** The control characters: 0x00-0x08, 0x0B-0x0C, 0x0E-0x1F and 0x7F. *)
Definition controlChar (c : N) : Prop :=
  (c ≤ 0x08 ∨ 0x0B ≤ c ≤ 0x0C ∨ 0x0E ≤ c ≤ 0x1F ∨ c = 0x7F)%N.

Definition allowed (arg : list N) : Prop :=
  arg = js "add" ∨ arg = js "list" ∨ arg = js "remove" ∨ arg = js "verify".

(** The environments of the processes spawned in a run. *)
Definition spawnEnvs (t : list event) : list (gmap (list N) (list N)) :=
  omap (fun e => match e with Spawn _ _ o => Some (spawn_env o) | _ => None end) t.

(** The documents written to [file] in a run, in order. *)
Definition writesTo (file : list N) (t : list event) : list json :=
  omap (fun e => match e with
                 | WriteFileSecure f doc =>
                     if bool_decide (f = file) then Some doc else None
                 | _ => None
                 end) t.

(** One turn of the wait loop that finds the proxy down. *)
Definition failedAttempt (h : host) : list event :=
  [Sleep 1000; Probe (PROXY_URL (env h) ++ js "/health") false;
   StdoutWrite (js ".")].

Definition execFuser (h : host) (p : list N) : event :=
  let command := js "fuser -k " ++ p ++ js "/tcp 2>/dev/null" in
  ExecSync command (execFails h command).

(** A host for the examples: home [/home/dev], the proxy checked out and node
    installed, the two configuration files as given. *)
Definition exampleHost (VERTEXHUB_PORT : option (list N))
    (settings claudeJson : node) (health : nat → bool) : host :=
  {| env := match VERTEXHUB_PORT with
            | Some p => {[ js "VERTEXHUB_PORT" := p ]}
            | None => ∅
            end;
     argv := [js "node"; js "vertexhub"; js "start"];
     homedir := js "/home/dev";
     PROXY_DIR := js "/home/dev/antigravity-proxy";
     fs := fun p =>
       if bool_decide (p = js "/home/dev/.claude/settings.json") then settings
       else if bool_decide (p = js "/home/dev/.claude.json") then claudeJson
       else if bool_decide (p = js "/home/dev/antigravity-proxy") then Unreadable
       else if bool_decide (p = js "/home/dev/antigravity-proxy/src/index.js")
            then File (js "import './server.js';")
       else Absent;
     nodeBin := Some (js "/usr/bin/node");
     health := health;
     execFails := fun _ => true |}.

(** The events of [cmdStart] up to its wait loop, when the proxy is found
    down and can be started. *)
Definition beforeWait (JSON_parse : list N → option json) (h : host)
  : list event :=
  [ConsoleLog StartBanner]
  ++ trace (configureClaudeSettings JSON_parse h)
  ++ [Probe (PROXY_URL (env h) ++ js "/health") false]
  ++ trace (startProxy h).

(** Example documents. *)
Definition settingsText : list N :=
  jsonText "{'theme':'dark','env':{'EDITOR':'vim','ANTHROPIC_MODEL':'mine'}}".

Definition settingsDoc : gmap (list N) json :=
  {[ js "theme" := JStr (js "dark");
     js "env" := JObj {[ js "EDITOR" := JStr (js "vim");
                         js "ANTHROPIC_MODEL" := JStr (js "mine") ]} ]}.

Definition flagText : list N := jsonText "{'hasCompletedOnboarding':false}".

(** Every process spawned by a computation, from whatever state it is run,
    gets an environment that satisfies [P]. *)
Definition spawnsWith (P : gmap (list N) (list N) → Prop) {A} (m : M A) : Prop :=
  ∀ n, Forall P (spawnEnvs (fst (m n))).

(** ** The runs of [cmdStart] *)

(** The launch of the coding CLI by [cmdStart]. *)
Definition launchClaude (h : host) : event :=
  Spawn (js "claude") []
    {| spawn_env :=
         <[js "ANTHROPIC_AUTH_TOKEN" := js "vertexhub-proxy"]>
           (<[js "ANTHROPIC_BASE_URL" := PROXY_URL (env h)]> (env h));
       spawn_cwd := None;
       spawn_detached := false |}.

(** The runs of [cmdStart]: what it does, in order, and whether it returns
    ([Some tt]) or has exited ([None]). *)
Inductive StartRun (JSON_parse : list N → option json) (h : host)
  : list event → option unit → Prop :=
| start_no_checkout :
    existsSync h (PROXY_DIR h) = false →
    StartRun JSON_parse h
      [ConsoleLog StartBanner; Console err ProxyDirNotFound;
       Console err CloneTheProxy; Exit 1] None
| start_no_entry_point :
    existsSync h (PROXY_DIR h) = true →
    existsSync h (join [PROXY_DIR h; js "src"; js "index.js"]) = false →
    StartRun JSON_parse h
      [ConsoleLog StartBanner; Console err EntryPointNotFound;
       Console err ProxyDirCorrupted; Exit 1] None
| start_already_running :
    existsSync h (PROXY_DIR h) = true →
    existsSync h (join [PROXY_DIR h; js "src"; js "index.js"]) = true →
    health h 0 = true →
    StartRun JSON_parse h
      ([ConsoleLog StartBanner]
       ++ trace (configureClaudeSettings JSON_parse h)
       ++ [Probe (PROXY_URL (env h) ++ js "/health") true;
           Console ok (ProxyAlreadyRunning (PROXY_URL (env h)));
           Console log LaunchingClaude; launchClaude h]) (Some tt)
| start_no_node :
    existsSync h (PROXY_DIR h) = true →
    existsSync h (join [PROXY_DIR h; js "src"; js "index.js"]) = true →
    health h 0 = false →
    nodeBin h = None →
    StartRun JSON_parse h
      ([ConsoleLog StartBanner]
       ++ trace (configureClaudeSettings JSON_parse h)
       ++ [Probe (PROXY_URL (env h) ++ js "/health") false;
           Console err NodeNotFound; Console err InstallNode; Exit 1]) None
| start_healthy (bin : list N) (j : nat) :
    existsSync h (PROXY_DIR h) = true →
    existsSync h (join [PROXY_DIR h; js "src"; js "index.js"]) = true →
    health h 0 = false →
    nodeBin h = Some bin →
    (j < 15)%nat →
    (∀ i, (i < j)%nat → health h (1 + i) = false) →
    health h (1 + j) = true →
    StartRun JSON_parse h
      (beforeWait JSON_parse h
       ++ concat (replicate j (failedAttempt h))
       ++ [Sleep 1000; Probe (PROXY_URL (env h) ++ js "/health") true;
           StdoutWrite [10%N]; Console ok (ProxyStarted (PROXY_URL (env h)));
           Console log LaunchingClaude; launchClaude h]) (Some tt)
| start_timeout (bin : list N) :
    existsSync h (PROXY_DIR h) = true →
    existsSync h (join [PROXY_DIR h; js "src"; js "index.js"]) = true →
    health h 0 = false →
    nodeBin h = Some bin →
    (∀ i, (i < 15)%nat → health h (1 + i) = false) →
    StartRun JSON_parse h
      (beforeWait JSON_parse h
       ++ concat (replicate 15 (failedAttempt h))
       ++ [StdoutWrite [10%N]; Console err ProxyFailedToStart;
           Console err (CheckProxyCommand (PROXY_PORT (env h))); Exit 1]) None.

(** Every event of [t] that satisfies [trigger] comes after one that
    satisfies [guard] ([seen]: one has been met already). *)
Fixpoint guarded {E} (guard trigger : E → bool) (seen : bool) (t : list E)
  : bool :=
  match t with
  | [] => true
  | e :: t =>
      (negb (trigger e) || seen) && guarded guard trigger (seen || guard e) t
  end.

Definition isHealthyProbe (e : event) : bool :=
  match e with Probe _ true => true | _ => false end.

Definition isSpawn (e : event) : bool :=
  match e with Spawn _ _ _ => true | _ => false end.

Definition isBareSpawn (e : event) : bool :=
  match e with Spawn _ [] _ => true | _ => false end.

Definition isSettingsWrite (h : host) (e : event) : bool :=
  match e with
  | WriteFileSecure f _ => bool_decide (f = CLAUDE_SETTINGS_FILE h)
  | _ => false
  end.

(** The time asked of [setTimeout] in a run, and the number of probes. *)
Definition sleepTotal (t : list event) : Z :=
  foldr (fun e acc => match e with Sleep ms => ms + acc | _ => acc end) 0 t.

Definition probeCount (t : list event) : nat :=
  length (List.filter (fun e => match e with Probe _ _ => true | _ => false end) t).

(** The kinds of events of [configureClaudeSettings]. *)
Definition configEvent (e : event) : Prop :=
  match e with
  | MkdirSync _ | Console _ _ | WriteFileSecure _ _ => True
  | _ => False
  end.

(** ** The rest of the command line

    The functions of [bin/vertexhub.js] that are not above: the listeners of
    [startProxy], [cleanup], [getProxyStatus], [getModels], [isRemoteSession],
    [cmdLogin], [cmdStatus], [cmdModels], [cmdHelp] and the dispatch on the
    command. *)

(** [String.prototype.includes] and [substring(0, n)]. *)
Fixpoint startsWith (needle s : list N) : bool :=
  match needle, s with
  | [], _ => true
  | c :: needle, d :: s => (c =? d)%N && startsWith needle s
  | _ :: _, [] => false
  end.

Fixpoint String_includes (s needle : list N) : bool :=
  startsWith needle s
  || match s with
     | [] => false
     | _ :: s => String_includes s needle
     end.

Definition substring0 (n : nat) (s : list N) : list N := take n s.

(** The class [[\x00-\x1f\x7f]] of [cmdModels]. *)
Definition allControlClass : list (N * N) := [(0x00, 0x1f); (0x7f, 0x7f)]%N.

(** The colour codes of [c]. *)
Definition sgr (code : string) : list N := 27%N :: js "[" ++ js code ++ js "m".

Definition c_reset := sgr "0".
Definition c_bold := sgr "1".
Definition c_cyan := sgr "36".

(** Texts printed as they are. *)
Inductive fixedText :=
| LoginBanner | StatusBanner | HelpText
| RemoteDetected
| RemoteInstructions (user hostname : list N)
| LoginComplete.

(** What these functions do, besides the events above. *)
Inductive output :=
| Ev (e : event)
| Say (l : level) (msg : list N)       (* log(msg), ok(msg), warn(msg), err(msg) *)
| Line (text : list N)                 (* console.log(text) *)
| Fixed (t : fixedText)                (* console.log of a fixed text *)
| Signal (target : Z) (failed : bool)  (* try { process.kill(target, 'SIGTERM') } catch { } *)
| Uncaught.                            (* a TypeError that nothing catches *)

(** *** The listeners of [startProxy] *)

(** The listener on the child's standard output; [data] is the chunk as a
    string. *)
Definition onStdoutData (h : host) (data : list N) : list output :=
  let line := trim data in
  if String_includes line (js "Server started successfully")
  then [Say ok (js "Proxy running at " ++ PROXY_URL (env h))]
  else [].

Definition onStderrData (h : host) (data : list N) : list output :=
  let line := trim data in
  if String_includes line (js "EADDRINUSE") then
    [Say warn (js "Port " ++ PROXY_PORT (env h) ++ js " already in use "
               ++ [0x2014%N] ++ js " proxy may already be running")]
  else if (0 <? length line)%nat then
    [Say log (js "[proxy:stderr] " ++ substring0 200 line)]
  else [].

(** *** [cleanup] *)

(** A tracked child process: [pid] is [undefined] when the spawn failed. *)
Record child := { pid : option N; killed : bool }.

(** [cleanup()]: SIGTERM to the process group of every child that has a pid
    and is not marked killed; [killFails] tells the calls of [process.kill]
    that throw. *)
Definition cleanup (killFails : Z → bool) (childProcesses : list child)
  : list output :=
  flat_map (fun c =>
    match pid c with
    | Some p =>
        if negb (p =? 0)%N && negb (killed c)
        then [Signal (- Z.of_N p) (killFails (- Z.of_N p))]
        else []
    | None => []
    end) childProcesses.

(** *** Requests to the proxy *)

(** What [fetch] gives: it rejects (connection refused, timeout), or there is
    a response with its status and its body as JSON, if it is JSON. *)
Inductive response :=
| Rejected
| Http (status : Z) (body : option json).

Definition response_ok (status : Z) : bool := (200 <=? status) && (status <=? 299).



(** Property access [v.name] and [v?.name] on a value read from JSON, for a
    name that is no index, not [length] and not on a prototype: the outer
    [None] is the TypeError of an access on [null]. *)
Definition getProp (v : json) (name : list N) : option (option json) :=
  match v with
  | JNull => None
  | JObj o => Some (o !! name)
  | _ => Some None
  end.

Definition getOptional (v : option json) (name : list N) : option json :=
  match v with
  | Some (JObj o) => o !! name
  | _ => None
  end.

(** [a || b] *)
Definition orElse (a : option json) (b : json) : json :=
  match a with
  | Some v => if ToBoolean a then v else b
  | None => b
  end.

Section Rest.

Variable JSON_parse : list N → option json.

(** [Number.prototype.toString] of the runtime, on the decimal a number was
    read from. *)
Variable numberToString : bool → N → Z → list N.

Fixpoint joinWith (sep : list N) (parts : list (list N)) : list N :=
  match parts with
  | [] => []
  | [p] => p
  | p :: parts => p ++ sep ++ joinWith sep parts
  end.

(** [String(v)], and [v] in a template literal: an array is joined with
    commas, [null] elements as empty strings; an object is
    ["[object Object]"], unless it has a property [toString] of its own
    (which is no function): then the conversion throws ([None]). *)
Fixpoint ToString (v : json) : option (list N) :=
  match v with
  | JNull => Some (js "null")
  | JBool true => Some (js "true")
  | JBool false => Some (js "false")
  | JNum neg m e => Some (numberToString neg m e)
  | JStr s => Some s
  | JArr l =>
      joinWith (js ",") <$>
        mapM (fun x => match x with JNull => Some [] | _ => ToString x end) l
  | JObj o =>
      match o !! js "toString" with
      | Some _ => None
      | None => Some (js "[object Object]")
      end
  end.

(** *** Commands *)

(** A computation in the manner of [M], with the further outputs. *)
Definition X (A : Type) : Type := nat → list output * option (A * nat).

Definition xret {A} (a : A) : X A := fun n => ([], Some (a, n)).

Definition xbind {A B} (m : X A) (f : A → X B) : X B :=
  fun n =>
    match m n with
    | (t, None) => (t, None)
    | (t, Some (a, n')) => let '(t', r) := f a n' in (t ++ t', r)
    end.

Declare Scope xcli_scope.
Delimit Scope xcli_scope with xcli.
Notation "'do' x <- m ;; k" := (xbind m (fun x => k))
  (at level 10, x name, m at level 99, k at level 200) : xcli_scope.
Notation "m ;; k" := (xbind m (fun _ => k))
  (at level 100, k at level 200, right associativity) : xcli_scope.

Definition out (o : output) : X unit := fun n => ([o], Some (tt, n)).
Definition xexit {A} (code : Z) : X A := fun n => ([Ev (Exit code)], None).
Definition uncaught {A} : X A := fun n => ([Uncaught], None).

(** A function of the first part, run here. *)
Definition lift {A} (m : M A) : X A :=
  fun n => let '(t, r) := m n in (Ev <$> t, r).

Fixpoint xforEach {A} (l : list A) (body : A → X unit) : X unit :=
  match l with
  | [] => xret tt
  | x :: l => (body x ;; xforEach l body)%xcli
  end.

Definition xtrace {A} (m : X A) : list output := fst (m O).
Definition xoutcome {A} (m : X A) : option A := fst <$> snd (m O).

(** How the accounts manager ends: it exits with a code ([null] when a signal
    killed it), or it could not be launched. *)
Inductive childEnd :=
| Exited (code : option Z)
| LaunchFailed (message : list N).

(** What the process meets besides [host]. *)
Record world := {
  healthResponse : response;           (* GET /health, in getProxyStatus *)
  limitsResponse : response;           (* GET /account-limits *)
  modelsResponse : response;           (* GET /v1/models *)
  accountsEnd : childEnd;
}.

Variable h : host.
Variable w : world.

Local Open Scope xcli_scope.
Local Abbreviation port := (PROXY_PORT (env h)).
Local Abbreviation url := (PROXY_URL (env h)).

(** A string of [process.env], or the default: [process.env.NAME || dflt]. *)
Definition envOr (name dflt : list N) : list N :=
  match env h !! name with
  | Some (c :: s) => c :: s
  | _ => dflt
  end.

(** [isRemoteSession()] *)
Definition isRemoteSession : bool :=
  let set name := match env h !! name with Some (_ :: _) => true | _ => false end in
  set (js "SSH_CONNECTION") || set (js "SSH_CLIENT") || set (js "SSH_TTY")
  || negb (set (js "DISPLAY")).

(** [cmdLogin()] *)
Definition cmdLogin : X unit :=
  let isRemote := isRemoteSession in
  out (Fixed LoginBanner) ;;
  lift (validateProxyDir h) ;;
  do running <- lift (isProxyRunning h) ;;
  (if running then
     out (Say log (js "Stopping proxy (required to manage accounts)...")) ;;
     lift (stopProxy h) ;;
     do still <- lift (isProxyRunning h) ;;
     (if still then
        out (Say err (js "Could not stop proxy. Stop it manually (Ctrl+C) and try again.")) ;;
        xexit 1
      else xret tt) ;;
     out (Say ok (js "Proxy stopped."))
   else xret tt) ;;
  (if isRemote then
     out (Fixed RemoteDetected) ;;
     out (Fixed (RemoteInstructions (envOr (js "USER") (js "user"))
                   (envOr (js "HOSTNAME") (js "your-server"))))
   else xret tt) ;;
  do bin <- lift (requireNodeBin h) ;;
  let accountsScript := join [PROXY_DIR h; js "src"; js "cli"; js "accounts.js"] in
  (if negb (existsSync h accountsScript) then
     out (Say err (js "Accounts script not found: " ++ accountsScript)) ;;
     xexit 1
   else xret tt) ;;
  let args := [accountsScript; js "add"]
              ++ (if isRemote then [js "--no-browser"] else []) in
  out (Ev (Spawn bin args
             {| spawn_env := <[js "PORT" := port]> (env h);
                spawn_cwd := Some (PROXY_DIR h);
                spawn_detached := false |})) ;;
  match accountsEnd w with
  | Exited code =>
      if bool_decide (code = Some 0) then
        out (Say ok (js "Google account linked successfully!")) ;;
        lift (configureClaudeSettings JSON_parse h) ;;
        out (Fixed LoginComplete)
      else
        out (Say err (js "Account linking failed (exit code: "
                      ++ match code with
                         | Some n => Number_toString n
                         | None => js "null"
                         end ++ js ")"))
  | LaunchFailed message =>
      out (Say err (js "Failed to launch accounts manager: " ++ message))
  end.

(** [getModels()]: the body of the response, or [null]. *)
Definition getModels : X json :=
  match modelsResponse w with
  | Rejected => xret JNull
  | Http status body =>
      if negb (response_ok status) then
        out (Say warn (js "Models endpoint returned HTTP " ++ Number_toString status)) ;;
        xret JNull
      else
        match body with
        | Some v => xret v
        | None => xret JNull
        end
  end.

(** [String(v).replace(/[\x00-\x1f\x7f]/g, '')] of [cmdModels]. *)
Definition displayId (id : list N) : list N := deleteAll allControlClass id.

(** [cmdModels()] *)
Definition cmdModels : X unit :=
  do running <- lift (isProxyRunning h) ;;
  (if negb running then
     out (Say err (js "Proxy not running. Start it first: vertexhub start")) ;;
     xexit 1
   else xret tt) ;;
  do models <- getModels ;;
  let data := getOptional (Some models) (js "data") in
  match data with
  | Some (JArr l) =>
      out (Line ([10%N] ++ c_bold ++ js "Available Models:" ++ c_reset ++ [10%N])) ;;
      xforEach l (fun model =>
        match getProp model (js "id") with
        | None => uncaught
        | Some id =>
            match ToString (orElse id (JStr [])) with
            | None => uncaught
            | Some s => out (Line (js "  " ++ c_cyan ++ displayId s ++ c_reset))
            end
        end) ;;
      out (Line ([10%N] ++ js "  Total: " ++ decimal (Z.of_nat (length l))
                 ++ js " models" ++ [10%N]))
  | _ =>
      (* !models?.data || !Array.isArray(models.data) *)
      out (Say err (js "Could not fetch models from proxy.")) ;;
      xexit 1
  end.






End Rest.

(** [getNodeBin()]: [whichNode] and [nvmNode] are what the two calls of
    [execSync] return, [None] when they throw. *)
Definition getNodeBin (h : host) (whichNode nvmNode : option (list N))
  : option (list N) :=
  let fromPath :=
    match whichNode with
    | Some text => match trim text with [] => None | result => Some result end
    | None => None
    end in
  match fromPath with
  | Some result => Some result
  | None =>
      if existsSync h (join [homedir h; js ".nvm"]) then
        match nvmNode with
        | Some text =>
            match trim text with
            | [] => None
            | result => if existsSync h result then Some result else None
            end
        | None => None
        end
      else None
  end.

(** ** Notions for the properties of runs *)

(** Every event of a computation, from whatever state, satisfies [P]. *)
Definition always (P : event → Prop) {A} (m : M A) : Prop :=
  ∀ n, Forall P (fst (m n)).

Definition xalways (P : output → Prop) {A} (m : X A) : Prop :=
  ∀ n, Forall P (fst (m n)).

(** Started having met a guard or not ([pre]), the computation keeps every
    trigger after a guard, and when it returns [a] with [post a], a guard has
    been met. *)
Definition ordered (guard trigger : output → bool) (pre : bool) {A}
    (m : X A) (post : A → bool) : Prop :=
  ∀ n,
    guarded guard trigger pre (fst (m n)) = true
    ∧ match snd (m n) with
      | Some (a, _) => post a = true → pre || existsb guard (fst (m n)) = true
      | None => True
      end.

Definition isDownProbe (o : output) : bool :=
  match o with Ev (Probe _ false) => true | _ => false end.

Definition isSpawnOut (o : output) : bool :=
  match o with Ev (Spawn _ _ _) => true | _ => false end.



(** The lines of [cmdModels]. *)
Definition modelsHeader : list N :=
  [10%N] ++ c_bold ++ js "Available Models:" ++ c_reset ++ [10%N].

Definition modelLine (id : list N) : list N :=
  js "  " ++ c_cyan ++ displayId id ++ c_reset.

Definition modelsTotal (n : nat) : list N :=
  [10%N] ++ js "  Total: " ++ decimal (Z.of_nat n) ++ js " models" ++ [10%N].

(** The identifier [cmdModels] shows for an entry of the list, before it
    deletes the control characters. *)
Definition modelId (numberToString : bool → N → Z → list N)
    (model : json) (id : list N) : Prop :=
  ∃ v, getProp model (js "id") = Some v
       ∧ ToString numberToString (orElse v (JStr [])) = Some id.

(** The session is remote, said on the environment: a variable of SSH is
    set to a non-empty string, or DISPLAY is unset or empty. *)
Definition remoteEnv (e : gmap (list N) (list N)) : Prop :=
  (∃ name v, name ∈ [js "SSH_CONNECTION"; js "SSH_CLIENT"; js "SSH_TTY"]
             ∧ e !! name = Some v ∧ v ≠ [])
  ∨ e !! js "DISPLAY" = None ∨ e !! js "DISPLAY" = Some [].


(** ** Hosts and worlds for the examples *)

(** [h] with the accounts manager on disk. *)
Definition withAccounts (h : host) : host :=
  {| env := env h; argv := argv h; homedir := homedir h;
     PROXY_DIR := PROXY_DIR h;
     fs := fun p =>
       if bool_decide (p = join [PROXY_DIR h; js "src"; js "cli"; js "accounts.js"])
       then File (js "#!/usr/bin/env node")
       else fs h p;
     nodeBin := nodeBin h; health := health h; execFails := execFails h |}.

(** [h] without the checkout of the proxy. *)
Definition withoutCheckout (h : host) : host :=
  {| env := env h; argv := argv h; homedir := homedir h;
     PROXY_DIR := PROXY_DIR h;
     fs := fun p => if bool_decide (p = PROXY_DIR h) then Absent else fs h p;
     nodeBin := nodeBin h; health := health h; execFails := execFails h |}.


(** A proxy that answers the status requests, with the given answer to the
    request for the models and the given end of the accounts manager. *)
Definition exampleWorld (models : response) (accounts : childEnd) : world :=
  {| healthResponse :=
       Http 200 (Some (JObj {[ js "version" := JStr (js "1.0.0") ]}));
     limitsResponse := Rejected;
     modelsResponse := models;
     accountsEnd := accounts |}.

(** [Number.prototype.toString] on the integers below 10^21 written without
    fraction and exponent, which is all the examples have. *)
Definition integerToString (neg : bool) (m : N) (e : Z) : list N :=
  (if neg && negb (m =? 0)%N then js "-" else []) ++ decimal (Z.of_N m).

(** A list of two models; the identifier of the second one has an escape
    sequence in it. *)
Definition exampleModels : list json :=
  [ JObj {[ js "id" := JStr (js "claude-opus-4-6-thinking") ]};
    JObj {[ js "id" := JStr (27%N :: js "[2Jgemini") ]} ].

(** * Properties *)

(** ** Decimal numerals *)

Lemma isDigit_spec c : isDigit c = true ↔ (48 ≤ c ≤ 57)%N.
Proof. unfold isDigit. rewrite andb_true_iff, !N.leb_le. tauto. Qed.

Lemma isWhiteSpace_not_digit c : isWhiteSpace c = true → isDigit c = false.
Proof.
  unfold isWhiteSpace, isDigit.
  rewrite !orb_true_iff, !andb_true_iff, !N.leb_le, !N.eqb_eq.
  intros H. apply andb_false_iff. rewrite !N.leb_gt. lia.
Qed.

Lemma digitsValue_snoc ds c :
  digitsValue (ds ++ [c]) = 10 * digitsValue ds + digitValue c.
Proof. unfold digitsValue. now rewrite fold_left_app. Qed.

Lemma digitsValue_nonneg ds :
  Forall (fun c => (48 ≤ c ≤ 57)%N) ds → 0 ≤ digitsValue ds.
Proof.
  induction ds as [|c ds IH] using rev_ind; intros Hd; [reflexivity|].
  apply Forall_app in Hd as [Hds Hc]. inversion_clear Hc.
  rewrite digitsValue_snoc. unfold digitValue. specialize (IH Hds). lia.
Qed.

Lemma digitsValue_pos ds :
  ds ≠ [] → Forall (fun c => (48 ≤ c ≤ 57)%N) ds → head ds ≠ Some 48%N →
  1 ≤ digitsValue ds.
Proof.
  induction ds as [|c ds IH] using rev_ind; intros Hne Hd Hh; [done|].
  apply Forall_app in Hd as [Hds Hc]. inversion_clear Hc.
  rewrite digitsValue_snoc. unfold digitValue.
  destruct ds as [|d ds].
  - simpl in *. assert (c ≠ 48%N) by congruence. unfold digitsValue; simpl. lia.
  - assert (1 ≤ digitsValue (d :: ds)) by (apply IH; done). lia.
Qed.

(** Printing the value of a numeral without leading zero gives it back. *)
Lemma decDigits_numeral t :
  t ≠ [] → Forall (fun c => (48 ≤ c ≤ 57)%N) t → head t ≠ Some 48%N →
  ∀ fuel acc, digitsValue t < 10 ^ Z.of_nat fuel →
    decDigits fuel (digitsValue t) acc = t ++ acc.
Proof.
  induction t as [|c t IH] using rev_ind; intros Hne Hd Hh fuel acc Hlt; [done|].
  pose proof (digitsValue_pos _ Hne Hd Hh) as Hpos.
  apply Forall_app in Hd as [Ht Hc]. inversion_clear Hc.
  rewrite digitsValue_snoc in *. unfold digitValue in *.
  destruct fuel as [|fuel].
  { change (10 ^ Z.of_nat 0) with 1 in Hlt. lia. }
  pose proof (digitsValue_nonneg t Ht) as Hnn.
  assert (Hmod : (10 * digitsValue t + (Z.of_N c - 48)) `mod` 10 = Z.of_N c - 48).
  { rewrite Z.add_comm, Z.mul_comm, Z.mod_add by lia. apply Z.mod_small. lia. }
  assert (Hdiv : (10 * digitsValue t + (Z.of_N c - 48)) `div` 10 = digitsValue t).
  { rewrite Z.add_comm, Z.mul_comm, Z.div_add by lia.
    rewrite Z.div_small by lia. lia. }
  simpl decDigits. rewrite Hmod, Hdiv.
  replace (Z.to_N (48 + (Z.of_N c - 48))) with c by lia.
  destruct t as [|d t].
  - reflexivity.
  - assert (1 ≤ digitsValue (d :: t)) by (apply digitsValue_pos; done).
    destruct (Z.eqb_spec (digitsValue (d :: t)) 0); [lia|].
    rewrite IH; [ by rewrite <- app_assoc | done | done | done | ].
    rewrite Nat2Z.inj_succ, Z.pow_succ_r in Hlt by lia. lia.
Qed.

Lemma decimal_fuel n : 1 ≤ n → n < 10 ^ Z.of_nat (S (Z.to_nat (Z.log2 n))).
Proof.
  intros Hn. rewrite Nat2Z.inj_succ, Z2Nat.id by apply Z.log2_nonneg.
  destruct (Z.log2_spec n) as [_ Hlt]; [lia|].
  eapply Z.lt_le_trans; [exact Hlt|].
  apply Z.pow_le_mono_l. lia.
Qed.

Lemma decimal_numeral t :
  t ≠ [] → Forall (fun c => (48 ≤ c ≤ 57)%N) t → head t ≠ Some 48%N →
  decimal (digitsValue t) = t.
Proof.
  intros Hne Hd Hh. unfold decimal.
  rewrite decDigits_numeral; [apply app_nil_r|done..|].
  apply decimal_fuel, digitsValue_pos; done.
Qed.

Lemma numeral_exists n :
  1 ≤ n → ∃ t, t ≠ [] ∧ Forall (fun c => (48 ≤ c ≤ 57)%N) t
               ∧ head t ≠ Some 48%N ∧ digitsValue t = n.
Proof.
  induction n as [n IH] using (well_founded_induction (Z.lt_wf 1)). intros Hn.
  destruct (Z_lt_dec n 10) as [Hsmall|Hbig].
  - exists [Z.to_N (48 + n)]. repeat split; [done| |simpl|].
    + constructor; [lia|constructor].
    + intros [= E]; lia.
    + unfold digitsValue, digitValue; simpl. lia.
  - destruct (IH (n / 10)) as (t & Hne & Hd & Hh & Hv).
    + split; [|apply Z.div_lt; lia]. apply Z.div_le_lower_bound; lia.
    + apply Z.div_le_lower_bound; lia.
    + exists (t ++ [Z.to_N (48 + n mod 10)]).
      pose proof (Z.mod_pos_bound n 10 ltac:(lia)).
      repeat split.
      * by destruct t.
      * apply Forall_app; split; [done|]. constructor; [lia|constructor].
      * destruct t; [done|]. exact Hh.
      * rewrite digitsValue_snoc, Hv. unfold digitValue.
        rewrite Z2N.id by lia. pose proof (Z.div_mod n 10 ltac:(lia)). lia.
Qed.

Lemma decimal_canonical n : 1 ≤ n → canonicalDecimal (decimal n) n.
Proof.
  intros Hn. destruct (numeral_exists n Hn) as (t & Hne & Hd & Hh & Hv).
  rewrite <- Hv at 1. rewrite decimal_numeral by done.
  repeat split; done.
Qed.

(** ** Trimming *)

Lemma trimStart_head s :
  match trimStart s with c :: _ => isWhiteSpace c = false | [] => True end.
Proof.
  induction s as [|c s IH]; simpl; [done|].
  destruct (isWhiteSpace c) eqn:E; [exact IH | exact E].
Qed.

Lemma trimEnd_head c r :
  isWhiteSpace c = false → ∃ r', trimEnd (c :: r) = c :: r'.
Proof. intros E. simpl. destruct (trimEnd r); rewrite ?E; eauto. Qed.

Lemma trimEnd_idemp s : trimEnd (trimEnd s) = trimEnd s.
Proof.
  induction s as [|c s IH]; simpl; [done|].
  destruct (trimEnd s) as [|d r'] eqn:E.
  - destruct (isWhiteSpace c) eqn:W; simpl; [done | by rewrite W].
  - change (trimEnd (c :: d :: r')) with
      (match trimEnd (d :: r') with
       | [] => if isWhiteSpace c then [] else [c]
       | r'' => c :: r''
       end).
    by rewrite IH.
Qed.

Lemma trimEnd_split s :
  ∃ w, s = trimEnd s ++ w ∧ Forall (fun c => isWhiteSpace c = true) w.
Proof.
  induction s as [|c s (w & Hs & Hw)]; simpl.
  - by exists [].
  - destruct (trimEnd s) as [|d r'] eqn:E.
    + destruct (isWhiteSpace c) eqn:W.
      * exists (c :: w). simpl in Hs. subst w. split; [done|]. by constructor.
      * exists w. simpl in Hs. by subst w.
    + exists w. split; [|done]. simpl in *. by f_equal.
Qed.

Lemma trimStart_trim s : trimStart (trim s) = trim s.
Proof.
  unfold trim. pose proof (trimStart_head s) as H.
  destruct (trimStart s) as [|c r]; [done|].
  destruct (trimEnd_head c r H) as [r' ->]. simpl. by rewrite H.
Qed.

Lemma trim_idemp s : trim (trim s) = trim s.
Proof.
  unfold trim at 1. rewrite trimStart_trim. unfold trim. apply trimEnd_idemp.
Qed.

Lemma takeDigits_app_ws x w :
  Forall (fun c => isWhiteSpace c = true) w →
  takeDigits (x ++ w) = takeDigits x.
Proof.
  intros Hw. induction x as [|c x IH]; simpl.
  - destruct Hw as [|c w Hc _]; simpl; [done|].
    by rewrite (isWhiteSpace_not_digit c Hc).
  - by rewrite IH.
Qed.

Lemma takeDigits_all t :
  Forall (fun c => (48 ≤ c ≤ 57)%N) t → takeDigits t = t.
Proof.
  induction 1 as [|c t Hc _ IH]; simpl; [done|].
  apply isDigit_spec in Hc. by rewrite Hc, IH.
Qed.

(** [parseInt] reads the same number with and without the white space
    around it. *)
Lemma parseInt10_trim s : parseInt10 s = parseInt10 (trim s).
Proof.
  unfold parseInt10. rewrite trimStart_trim. unfold trim.
  pose proof (trimStart_head s) as Hh.
  destruct (trimEnd_split (trimStart s)) as (w & Hs & Hw).
  destruct (trimEnd (trimStart s)) as [|c t] eqn:E.
  - simpl in Hs. rewrite Hs in *.
    destruct Hw as [|d w Hd _]; [done|]. congruence.
  - rewrite Hs. cbn [app].
    destruct (c =? 45)%N; [by rewrite takeDigits_app_ws|].
    destruct (c =? 43)%N; [by rewrite takeDigits_app_ws|].
    change (c :: t ++ w) with ((c :: t) ++ w).
    by rewrite takeDigits_app_ws.
Qed.

(** ** [sanitizePort] *)

Lemma sanitizePort_trim s : sanitizePort (Some s) = sanitizePort (Some (trim s)).
Proof.
  destruct s as [|c s]; [done|].
  destruct (trim (c :: s)) as [|d t] eqn:E.
  - simpl. rewrite parseInt10_trim, E. done.
  - simpl. rewrite <- E, trim_idemp, <- parseInt10_trim. done.
Qed.

(** The checks of the source, one by one. *)
Lemma sanitizePort_Some s r :
  sanitizePort (Some s) = Some r ↔
  ∃ num, parseInt10 s = Some num ∧ 1 ≤ num ≤ 65535
         ∧ Number_toString num = trim s ∧ r = trim s.
Proof.
  destruct s as [|c s].
  { split; [done|]. intros (num & H & _). done. }
  simpl sanitizePort. destruct (parseInt10 (c :: s)) as [num|]; cycle 1.
  { split; [done|]. intros (num & H & _). done. }
  destruct (Z.ltb_spec num 1); simpl.
  { split; [done|]. intros (? & [= <-] & ? & _). lia. }
  destruct (Z.gtb_spec num 65535); simpl.
  { split; [done|]. intros (? & [= <-] & ? & _). lia. }
  case_bool_decide as Heq; simpl.
  - split.
    + intros [= <-]. exists num. repeat split; try done; try lia.
    + intros (? & [= <-] & _ & _ & ->). by rewrite Heq.
  - split; [done|]. intros (? & [= <-] & _ & ? & _). done.
Qed.

(** What is accepted, and what is returned for it. *)
Lemma sanitizePort_canonical s r :
  sanitizePort (Some s) = Some r ↔
  r = trim s ∧ ∃ n, 1 ≤ n ≤ 65535 ∧ canonicalDecimal (trim s) n.
Proof.
  split.
  - intros (num & Hp & Hr & Hs & ->)%sanitizePort_Some. split; [done|].
    exists num. split; [done|]. rewrite <- Hs. unfold Number_toString.
    destruct (Z.ltb_spec num 0); [lia|]. apply decimal_canonical. lia.
  - intros (-> & n & Hn & Hne & Hd & Hh & Hv).
    rewrite sanitizePort_trim. apply sanitizePort_Some.
    exists n. rewrite trim_idemp.
    assert (Hh' : head (trim s) ≠ Some 48%N).
    { intros E. rewrite (Hh E) in Hv.
      unfold digitsValue, digitValue in Hv. simpl in Hv. lia. }
    repeat split; try lia.
    + unfold parseInt10. rewrite trimStart_trim.
      destruct (trim s) as [|c t] eqn:E; [done|].
      inversion_clear Hd as [|? ? Hc Ht].
      destruct (N.eqb_spec c 45); [lia|]. destruct (N.eqb_spec c 43); [lia|].
      rewrite takeDigits_all by (by constructor). by rewrite Z.mul_1_l, Hv.
    + unfold Number_toString. destruct (Z.ltb_spec n 0); [lia|].
      rewrite <- Hv. by apply decimal_numeral.
Qed.

(** C1. For every string [s], [sanitizePort] (the spec's validatePort)
    returns a value if and only if [s] trimmed is the canonical decimal
    numeral of an integer between 1 and 65535, with nothing else in it;
    "8090" and "65535" are accepted, "08080", "3.14", "-1" and "0" are
    rejected. *)
Theorem sanitizePort_accepts_canonical_ports :
  (∀ s : list N,
     is_Some (sanitizePort (Some s))
     ↔ ∃ n, 1 ≤ n ≤ 65535 ∧ canonicalDecimal (trim s) n)
  ∧ sanitizePort (Some (js "8090")) = Some (js "8090")
  ∧ sanitizePort (Some (js "65535")) = Some (js "65535")
  ∧ sanitizePort (Some (js "08080")) = None
  ∧ sanitizePort (Some (js "3.14")) = None
  ∧ sanitizePort (Some (js "-1")) = None
  ∧ sanitizePort (Some (js "0")) = None.
Proof.
  split_and!; try by vm_compute.
  intros s. split.
  - intros [r Hr]. by apply sanitizePort_canonical in Hr as [_ Hn].
  - intros Hn. exists (trim s). by apply sanitizePort_canonical.
Qed.

(** C2, as the code has it: the string " 80 " is accepted, and the port
    returned for it is "80"; white space around the port never changes the
    answer of [sanitizePort]. *)
Theorem sanitizePort_ignores_surrounding_space :
  sanitizePort (Some (js " 80 ")) = Some (js "80")
  ∧ ∀ s, sanitizePort (Some s) = sanitizePort (Some (trim s)).
Proof. split; [by vm_compute|apply sanitizePort_trim]. Qed.

(** C2 as stated fails: " 80 " is not rejected. *)
Lemma sanitizePort_space_80_not_rejected :
  sanitizePort (Some (js " 80 ")) ≠ None.
Proof. by vm_compute. Qed.

(** ** The effective port *)

Lemma PROXY_PORT_default (e : gmap (list N) (list N)) :
  sanitizePort (e !! js "VERTEXHUB_PORT") = None → PROXY_PORT e = js "8090".
Proof. unfold PROXY_PORT. by intros ->. Qed.

Lemma spawnsWith_ret P {A} (a : A) : spawnsWith P (ret a).
Proof. intros n. constructor. Qed.

Lemma spawnsWith_exit P {A} code : spawnsWith P (@exit A code).
Proof. intros n. constructor. Qed.

Lemma spawnsWith_bind P {A B} (m : M A) (f : A → M B) :
  spawnsWith P m → (∀ a, spawnsWith P (f a)) → spawnsWith P (bind m f).
Proof.
  intros Hm Hf n. unfold bind. specialize (Hm n).
  destruct (m n) as [t [[a n']|]]; [|done].
  specialize (Hf a n'). destruct (f a n') as [t' r]. simpl in *.
  unfold spawnEnvs in *. rewrite omap_app. by apply Forall_app.
Qed.

Lemma spawnsWith_emit P e :
  match e with Spawn _ _ o => P (spawn_env o) | _ => True end →
  spawnsWith P (emit e).
Proof.
  intros He n. unfold emit, spawnEnvs. simpl.
  destruct e; simpl; try constructor; [done|constructor].
Qed.

Lemma spawnsWith_isProxyRunning P h : spawnsWith P (isProxyRunning h).
Proof. intros n. constructor. Qed.

Lemma spawnsWith_validateProxyDir P h : spawnsWith P (validateProxyDir h).
Proof.
  unfold validateProxyDir.
  repeat (case_match;
          repeat first [apply spawnsWith_bind; [|intros ?]
                       |by apply spawnsWith_emit
                       |apply spawnsWith_exit|apply spawnsWith_ret]).
Qed.

Lemma spawnsWith_requireNodeBin P h : spawnsWith P (requireNodeBin h).
Proof.
  unfold requireNodeBin.
  repeat (case_match;
          repeat first [apply spawnsWith_bind; [|intros ?]
                       |by apply spawnsWith_emit
                       |apply spawnsWith_exit|apply spawnsWith_ret]).
Qed.

Lemma startProxy_spawnEnvs h :
  spawnsWith (fun e => e !! js "PORT" = Some (PROXY_PORT (env h))) (startProxy h).
Proof.
  unfold startProxy.
  apply spawnsWith_bind; [apply spawnsWith_validateProxyDir|intros _].
  apply spawnsWith_bind; [apply spawnsWith_requireNodeBin|intros bin].
  apply spawnsWith_bind; [by apply spawnsWith_emit|intros _].
  apply spawnsWith_emit. cbn [spawn_env].
  rewrite lookup_insert_ne by (by vm_compute). apply lookup_insert_eq.
Qed.

Lemma cmdAccounts_spawnEnvs h :
  spawnsWith (fun e => e !! js "PORT" = Some (PROXY_PORT (env h))) (cmdAccounts h).
Proof.
  unfold cmdAccounts.
  apply spawnsWith_bind; [apply spawnsWith_isProxyRunning|intros running].
  apply spawnsWith_bind.
  { destruct running; simpl; [apply spawnsWith_ret|].
    apply spawnsWith_bind; [by apply spawnsWith_emit|intros _].
    apply spawnsWith_exit. }
  intros _.
  apply spawnsWith_bind; [apply spawnsWith_validateProxyDir|intros _].
  apply spawnsWith_bind; [apply spawnsWith_requireNodeBin|intros bin].
  apply spawnsWith_bind.
  { case_match; [|apply spawnsWith_ret].
    apply spawnsWith_bind; [by apply spawnsWith_emit|intros _].
    apply spawnsWith_exit. }
  intros _. apply spawnsWith_emit. cbn [spawn_env]. apply lookup_insert_eq.
Qed.

(** C3. Whenever the value of VERTEXHUB_PORT fails the validation (in
    particular when the variable is unset, empty, or is the injection string
    "8080; rm -rf /"), the effective port is the default "8090": in the
    proxy URL and in the environment of every process spawned by
    [startProxy] and [cmdAccounts].  Nothing is raised: the fallback is a
    value of [PROXY_PORT]. *)
Theorem invalid_port_falls_back_to_default (h : host) :
  env h !! js "VERTEXHUB_PORT" = None
  ∨ env h !! js "VERTEXHUB_PORT" = Some []
  ∨ env h !! js "VERTEXHUB_PORT" = Some (js "8080; rm -rf /")
  ∨ sanitizePort (env h !! js "VERTEXHUB_PORT") = None →
  PROXY_PORT (env h) = js "8090"
  ∧ PROXY_URL (env h) = js "http://127.0.0.1:8090"
  ∧ Forall (fun e => e !! js "PORT" = Some (js "8090"))
           (spawnEnvs (trace (startProxy h)))
  ∧ Forall (fun e => e !! js "PORT" = Some (js "8090"))
           (spawnEnvs (trace (cmdAccounts h))).
Proof.
  intros Hbad.
  assert (sanitizePort (env h !! js "VERTEXHUB_PORT") = None) as Hnone.
  { destruct Hbad as [->|[->|[->|H]]]; done || by vm_compute. }
  pose proof (PROXY_PORT_default _ Hnone) as Hp. split_and!.
  - done.
  - unfold PROXY_URL. by rewrite Hp.
  - rewrite <- Hp. apply startProxy_spawnEnvs.
  - rewrite <- Hp. apply cmdAccounts_spawnEnvs.
Qed.

Lemma invalid_port_falls_back_witness :
  let h := exampleHost (Some (js "8080; rm -rf /")) Absent Absent (fun _ => false) in
  PROXY_PORT (env h) = js "8090"
  ∧ PROXY_URL (env h) = js "http://127.0.0.1:8090"
  ∧ Forall (fun e => e !! js "PORT" = Some (js "8090"))
           (spawnEnvs (trace (startProxy h)))
  ∧ Forall (fun e => e !! js "PORT" = Some (js "8090"))
           (spawnEnvs (trace (cmdAccounts h))).
Proof.
  apply invalid_port_falls_back_to_default.
  right. right. left. vm_compute. reflexivity.
Defined.

(** ** Filters *)

Lemma filter_sublist {A} (p : A → bool) (l : list A) :
  sublist (List.filter p l) l.
Proof.
  induction l as [|x l IH]; simpl; [constructor|].
  destruct (p x); by constructor.
Qed.

(** Whatever subsequence satisfies the test survives the filter, in order. *)
Lemma filter_sublist_max {A} (p : A → bool) (k l : list A) :
  sublist k l → Forall (fun x => p x = true) k → sublist k (List.filter p l).
Proof.
  induction 1 as [|x k l _ IH|x k l _ IH]; intros Hk; simpl.
  - constructor.
  - inversion_clear Hk as [|? ? Hx Hk']. rewrite Hx. constructor. by apply IH.
  - destruct (p x); [constructor|]; by apply IH.
Qed.

Lemma filter_Forall {A} (p : A → bool) (l : list A) :
  Forall (fun x => p x = true) (List.filter p l).
Proof.
  induction l as [|x l IH]; simpl; [constructor|].
  destruct (p x) eqn:E; [by constructor|done].
Qed.

Lemma Forall_sublist {A} (P : A → Prop) (k l : list A) :
  sublist k l → Forall P l → Forall P k.
Proof.
  induction 1 as [|x k l _ IH|x k l _ IH]; intros Hl; [done|..];
    inversion_clear Hl; [constructor|]; auto.
Qed.

Lemma filter_idemp {A} (p : A → bool) (l : list A) :
  List.filter p (List.filter p l) = List.filter p l.
Proof.
  induction l as [|x l IH]; simpl; [done|].
  destruct (p x) eqn:E; simpl; [by rewrite E, IH|done].
Qed.

Lemma includes_spec l x : includes l x = true ↔ x ∈ l.
Proof.
  unfold includes. rewrite existsb_exists. split.
  - intros (y & Hy & E). apply bool_decide_eq_true in E. subst.
    by apply list_elem_of_In.
  - intros H. exists x. split; [by apply list_elem_of_In|].
    by apply bool_decide_eq_true.
Qed.

Lemma allowed_spec arg : includes allowedSubcommands arg = true ↔ allowed arg.
Proof.
  rewrite includes_spec. unfold allowedSubcommands, allowed.
  rewrite !elem_of_cons, elem_of_nil. tauto.
Qed.

Lemma controlClass_spec c : classMatches controlClass c = true ↔ controlChar c.
Proof.
  unfold classMatches, controlClass, controlChar. simpl.
  rewrite !orb_true_iff, !andb_true_iff, !N.leb_le. lia.
Qed.

(** C4. The subcommands passed on by [cmdAccounts] are the arguments after
    the command that belong to the allow-list add, list, remove, verify: a
    subsequence of the arguments (so in their order), made of allowed
    strings only, that contains every subsequence of allowed arguments;
    from add, rm, list, DROP it keeps exactly add, list. *)
Theorem subArgs_keeps_allowed_in_order (argv : list (list N)) :
  sublist (subArgs argv) (drop 3 argv)
  ∧ Forall allowed (subArgs argv)
  ∧ (∀ l, sublist l (drop 3 argv) ∧ Forall allowed l ↔
          sublist l (subArgs argv))
  ∧ subArgs [js "node"; js "vertexhub"; js "accounts";
             js "add"; js "rm"; js "list"; js "DROP"] = [js "add"; js "list"].
Proof.
  assert (Forall allowed (subArgs argv)) as Hall.
  { eapply Forall_impl; [apply filter_Forall|]. intros a. apply allowed_spec. }
  unfold subArgs in *. split_and!.
  - apply filter_sublist.
  - done.
  - intros l. split.
    + intros [Hl Ha]. apply filter_sublist_max; [done|].
      eapply Forall_impl; [exact Ha|]. intros a. apply allowed_spec.
    + intros Hl. split.
      * etrans; [exact Hl|]. apply filter_sublist.
      * eapply Forall_sublist; done.
  - reflexivity.
Qed.

(** C8. [sanitizeForTerminal] (the spec's stripControlChars) is idempotent,
    it only deletes, and it deletes no character outside the control ranges
    0x00-0x08, 0x0B-0x0C, 0x0E-0x1F, 0x7F: every subsequence of the input
    free of control characters is a subsequence of the output. *)
Theorem sanitizeForTerminal_idempotent_preserving (s : list N) :
  sanitizeForTerminal (sanitizeForTerminal s) = sanitizeForTerminal s
  ∧ sublist (sanitizeForTerminal s) s
  ∧ Forall (fun c => ¬ controlChar c) (sanitizeForTerminal s)
  ∧ (∀ l, sublist l s ∧ Forall (fun c => ¬ controlChar c) l ↔
          sublist l (sanitizeForTerminal s)).
Proof.
  assert (Forall (fun c => ¬ controlChar c) (sanitizeForTerminal s)) as Hall.
  { eapply Forall_impl; [apply filter_Forall|]. intros c Hc. cbv beta in Hc.
    apply negb_true_iff in Hc. rewrite <- controlClass_spec. by rewrite Hc. }
  unfold sanitizeForTerminal, deleteAll in *. split_and!.
  - apply filter_idemp.
  - apply filter_sublist.
  - done.
  - intros l. split.
    + intros [Hl Hc]. apply filter_sublist_max; [done|].
      eapply Forall_impl; [exact Hc|]. intros c Hn. cbv beta in Hn.
      apply negb_true_iff, not_true_is_false. by rewrite controlClass_spec.
    + intros Hl. split.
      * etrans; [exact Hl|]. apply filter_sublist.
      * eapply Forall_sublist; done.
Qed.

(** ** [stopProxy] *)

Lemma Set_values_pair a b :
  Set_values [a; b] = if bool_decide (a = b) then [a] else [a; b].
Proof. unfold Set_values. simpl. by rewrite orb_false_r. Qed.

(** C10. Whatever the configured port and whichever of the commands fail,
    [stopProxy] runs [fuser -k] on port 8080 first, then on the configured
    port when it is another one, then waits 2000 ms, and returns. *)
Theorem stopProxy_frees_8080_and_port (h : host) (n : nat) :
  let ports := if bool_decide (PROXY_PORT (env h) = js "8080")
               then [js "8080"] else [js "8080"; PROXY_PORT (env h)] in
  stopProxy h n = (List.map (execFuser h) ports ++ [Sleep 2000], Some (tt, n))
  ∧ head (fst (stopProxy h n)) = Some (execFuser h (js "8080")).
Proof.
  unfold stopProxy. rewrite Set_values_pair.
  rewrite (bool_decide_ext (js "8080" = PROXY_PORT (env h))
             (PROXY_PORT (env h) = js "8080")) by done.
  case_bool_decide; done.
Qed.

(** ** [configureClaudeSettings] *)

#[local] Arguments objectLiteral : simpl never.

Lemma config_files_differ h : CLAUDE_JSON_FILE h ≠ CLAUDE_SETTINGS_FILE h.
Proof.
  unfold CLAUDE_JSON_FILE, CLAUDE_SETTINGS_FILE, CLAUDE_CONFIG_DIR, join. simpl.
  rewrite <- !app_assoc. intros E%app_inv_head. vm_compute in E. discriminate.
Qed.

Lemma objectLiteral_lookup_other base props k :
  k ∉ props.*1 → objectLiteral base props !! k = base !! k.
Proof.
  unfold objectLiteral. revert base.
  induction props as [|[k' v'] props IH]; intros base Hk; simpl; [done|].
  rewrite fmap_cons, not_elem_of_cons in Hk. destruct Hk as [Hne Hk].
  rewrite IH by done. by apply lookup_insert_ne.
Qed.

Lemma objectLiteral_lookup base props k v :
  NoDup props.*1 → (k, v) ∈ props → objectLiteral base props !! k = Some v.
Proof.
  unfold objectLiteral. revert base.
  induction props as [|[k' v'] props IH]; intros base Hnd Hin; simpl.
  - by apply elem_of_nil in Hin.
  - rewrite fmap_cons in Hnd.
    pose proof (NoDup_cons_1_1 _ _ Hnd) as Hk'. apply NoDup_cons_1_2 in Hnd.
    apply elem_of_cons in Hin as [[= -> ->]|Hin].
    + pose proof (objectLiteral_lookup_other (<[k':=v']> base) props k' Hk') as H.
      unfold objectLiteral in H. rewrite H. apply lookup_insert_eq.
    + by apply IH.
Qed.

Lemma objectLiteral_dom base props : dom base ⊆ dom (objectLiteral base props).
Proof.
  unfold objectLiteral. revert base.
  induction props as [|[k' v'] props IH]; intros base; simpl; [done|].
  etrans; [|apply IH]. rewrite dom_insert. set_solver.
Qed.

Lemma fixedEnv_NoDup h : NoDup (fixedEnv h).*1.
Proof. apply (bool_decide_unpack _). by vm_compute. Qed.

Lemma ensurePlainObject_other v : (∀ o, v ≠ JObj o) → ensurePlainObject v = ∅.
Proof. destruct v; try done. intros H. by destruct (H o). Qed.

(** [configureClaudeSettings] returns, and leaves the probe count alone. *)
Lemma configureClaudeSettings_run parse h n :
  configureClaudeSettings parse h n
  = (trace (configureClaudeSettings parse h), Some (tt, n)).
Proof.
  unfold trace, configureClaudeSettings, bind, when, emit, ret.
  destruct (tryParse parse h (CLAUDE_SETTINGS_FILE h)) as [v1 [|]];
  destruct (tryParse parse h (CLAUDE_JSON_FILE h)) as [v2 [|]]; simpl;
  destruct (ToBoolean _); reflexivity.
Qed.

(** The one document written to the settings file. *)
Lemma settings_written parse h :
  writesTo (CLAUDE_SETTINGS_FILE h) (trace (configureClaudeSettings parse h))
  = [JObj (mergeEnv h (loadSettings parse h))].
Proof.
  pose proof (config_files_differ h) as Hne.
  unfold loadSettings, trace, configureClaudeSettings, bind, when, emit, ret.
  destruct (tryParse parse h (CLAUDE_SETTINGS_FILE h)) as [v1 [|]];
  destruct (tryParse parse h (CLAUDE_JSON_FILE h)) as [v2 [|]]; simpl;
  destruct (ToBoolean _); simpl;
  repeat case_bool_decide; done.
Qed.

(** C5. The settings the merge starts from (the spec's mergeJsonObject) are
    the empty object whenever the text of the settings file does not parse
    or parses to something that is not a plain object: null, an array, a
    primitive.  The exception of [JSON.parse] is caught: [loadSettings] is a
    total function. *)
Theorem loadSettings_non_object_is_empty
    (JSON_parse : list N → option json) (h : host) (text : list N) :
  fs h (CLAUDE_SETTINGS_FILE h) = File text →
  JSON_parse text = None
  ∨ (∃ v, JSON_parse text = Some v ∧ ∀ o, v ≠ JObj o) →
  loadSettings JSON_parse h = ∅.
Proof.
  intros Hf Hp. unfold loadSettings, tryParse. rewrite Hf.
  destruct Hp as [->|(v & -> & Hv)]; [done|]. by apply ensurePlainObject_other.
Qed.

Lemma loadSettings_array_witness :
  loadSettings JSON.parse
    (exampleHost None (File (js "[1,2,3]")) Absent (fun _ => false)) = ∅.
Proof.
  apply (loadSettings_non_object_is_empty _ _ (js "[1,2,3]")).
  - vm_compute. reflexivity.
  - right. eexists. split; [vm_compute; reflexivity|]. intros o. discriminate.
Defined.

(** The other inputs the specification names, and the two cases without a
    text to parse. *)
Example loadSettings_null_unparsable_missing :
  loadSettings JSON.parse
    (exampleHost None (File (js "null")) Absent (fun _ => false)) = ∅
  ∧ loadSettings JSON.parse
      (exampleHost None (File (js "{oops")) Absent (fun _ => false)) = ∅
  ∧ loadSettings JSON.parse
      (exampleHost None Unreadable Absent (fun _ => false)) = ∅
  ∧ loadSettings JSON.parse
      (exampleHost None Absent Absent (fun _ => false)) = ∅.
Proof. split_and!; vm_compute; reflexivity. Qed.

(** C6. When the settings file holds a JSON object, the object written back
    has every top-level property other than [env] unchanged, and an [env]
    object that holds the fixed keys with their values; if [env] was an
    object, all its keys are still there, and those that are not fixed keys
    keep their values. *)
Theorem configureClaudeSettings_merges_env
    (JSON_parse : list N → option json) (h : host) (text : list N)
    (o : gmap (list N) json) :
  fs h (CLAUDE_SETTINGS_FILE h) = File text →
  JSON_parse text = Some (JObj o) →
  ∃ o',
    writesTo (CLAUDE_SETTINGS_FILE h)
      (trace (configureClaudeSettings JSON_parse h)) = [JObj o']
    ∧ (∀ k, k ≠ js "env" → o' !! k = o !! k)
    ∧ ∃ env', o' !! js "env" = Some (JObj env')
        ∧ (∀ k v, (k, v) ∈ fixedEnv h → env' !! k = Some v)
        ∧ (∀ old, o !! js "env" = Some (JObj old) →
             dom old ⊆ dom env'
             ∧ ∀ k, k ∉ (fixedEnv h).*1 → env' !! k = old !! k).
Proof.
  intros Hf Hp. eexists. split; [apply settings_written|].
  assert (loadSettings JSON_parse h = o) as ->.
  { unfold loadSettings, tryParse. by rewrite Hf, Hp. }
  unfold mergeEnv. split.
  - intros k Hk. by apply lookup_insert_ne.
  - eexists. split; [apply lookup_insert_eq|]. split.
    + intros k v Hin. apply objectLiteral_lookup; [apply fixedEnv_NoDup|done].
    + intros old ->. simpl. split.
      * apply objectLiteral_dom.
      * intros k Hk. by apply objectLiteral_lookup_other.
Qed.

Lemma configureClaudeSettings_merges_env_witness :
  let h := exampleHost None (File settingsText) Absent (fun _ => false) in
  ∃ o',
    writesTo (CLAUDE_SETTINGS_FILE h)
      (trace (configureClaudeSettings JSON.parse h)) = [JObj o']
    ∧ (∀ k, k ≠ js "env" → o' !! k = settingsDoc !! k)
    ∧ ∃ env', o' !! js "env" = Some (JObj env')
        ∧ (∀ k v, (k, v) ∈ fixedEnv h → env' !! k = Some v)
        ∧ (∀ old, settingsDoc !! js "env" = Some (JObj old) →
             dom old ⊆ dom env'
             ∧ ∀ k, k ∉ (fixedEnv h).*1 → env' !! k = old !! k).
Proof.
  apply (configureClaudeSettings_merges_env _ _ settingsText settingsDoc).
  - vm_compute. reflexivity.
  - vm_compute. reflexivity.
Defined.

(** C9, as the code has it: the onboarding file is rewritten, with
    [hasCompletedOnboarding] set to true and nothing else changed, exactly
    when the field is missing or falsy in the document read; when it is
    there with a truthy value nothing is written to the file. *)
Theorem onboarding_flag_written_iff_falsy
    (JSON_parse : list N → option json) (h : host) :
  let doc := ensurePlainObject (fst (tryParse JSON_parse h (CLAUDE_JSON_FILE h))) in
  writesTo (CLAUDE_JSON_FILE h) (trace (configureClaudeSettings JSON_parse h))
  = if ToBoolean (doc !! js "hasCompletedOnboarding") then []
    else [JObj (<[js "hasCompletedOnboarding" := JBool true]> doc)].
Proof.
  pose proof (config_files_differ h) as Hne.
  assert (CLAUDE_SETTINGS_FILE h ≠ CLAUDE_JSON_FILE h) as Hne' by done.
  unfold trace, configureClaudeSettings, bind, when, emit, ret.
  destruct (tryParse JSON_parse h (CLAUDE_SETTINGS_FILE h)) as [v1 [|]];
  destruct (tryParse JSON_parse h (CLAUDE_JSON_FILE h)) as [v2 [|]]; simpl;
  destruct (ToBoolean _); simpl;
  repeat case_bool_decide; done.
Qed.

(** C9 as stated fails: with the field present and false, the file is
    rewritten and the field becomes true. *)
Lemma onboarding_flag_false_is_overwritten :
  let h := exampleHost None Absent (File flagText) (fun _ => false) in
  fs h (CLAUDE_JSON_FILE h) = File flagText
  ∧ JSON.parse flagText
    = Some (JObj {[ js "hasCompletedOnboarding" := JBool false ]})
  ∧ writesTo (CLAUDE_JSON_FILE h) (trace (configureClaudeSettings JSON.parse h))
    = [JObj {[ js "hasCompletedOnboarding" := JBool true ]}].
Proof. split_and!; vm_compute; reflexivity. Qed.

(** What is falsy in a JSON document. *)
Lemma ToBoolean_false v :
  ToBoolean v = false ↔
  v = None ∨ v = Some JNull ∨ v = Some (JBool false) ∨ v = Some (JStr [])
  ∨ ∃ neg m e, v = Some (JNum neg m e) ∧ numberIsZero m e = true.
Proof.
  split.
  - destruct v as [[|[|]|neg m e|[|c s]|l|o]|]; simpl; intros H;
      try discriminate; auto 6.
    do 4 right. exists neg, m, e. split; [done|]. by apply negb_false_iff.
  - intros [->|[->|[->|[->|(neg & m & e & -> & H)]]]]; simpl; try done.
    by rewrite H.
Qed.

(** ** The wait loop of [cmdStart] *)

Lemma bind_eq {A B} (m : M A) (f : A → M B) n t a n' t' r :
  m n = (t, Some (a, n')) → f a n' = (t', r) → bind m f n = (t ++ t', r).
Proof. unfold bind. by intros -> ->. Qed.

Lemma bind_eq_exit {A B} (m : M A) (f : A → M B) n t :
  m n = (t, None) → bind m f n = (t, None).
Proof. unfold bind. by intros ->. Qed.

(** With the proxy down at all of the next [k] probes, the loop makes [k]
    failed attempts and gives up. *)
Lemma waitForProxy_timeout h k n :
  (∀ i, (i < k)%nat → health h (n + i) = false) →
  waitForProxy h k n
  = (concat (replicate k (failedAttempt h)), Some (false, (n + k)%nat)).
Proof.
  revert n. induction k as [|k IH]; intros n Hdown.
  - simpl. unfold ret. by rewrite Nat.add_0_r.
  - assert (health h n = false) as H0.
    { specialize (Hdown O ltac:(lia)). by rewrite Nat.add_0_r in Hdown. }
    specialize (IH (S n)). rewrite Nat.add_succ_comm in IH.
    cbn [waitForProxy]. unfold bind at 1 2, emit, isProxyRunning.
    rewrite H0. unfold bind, emit. rewrite IH; [done|].
    intros i Hi. specialize (Hdown (S i) ltac:(lia)).
    by rewrite Nat.add_succ_comm.
Qed.

(** With the proxy up at probe [j] for the first time, the loop stops at
    once, after [j] failed attempts. *)
Lemma waitForProxy_healthy h k j n :
  (j < k)%nat → (∀ i, (i < j)%nat → health h (n + i) = false) →
  health h (n + j) = true →
  waitForProxy h k n
  = (concat (replicate j (failedAttempt h))
       ++ [Sleep 1000; Probe (PROXY_URL (env h) ++ js "/health") true],
     Some (true, S (n + j))).
Proof.
  revert j n. induction k as [|k IH]; intros j n Hj Hdown Hup; [lia|].
  cbn [waitForProxy]. unfold bind at 1 2, emit, isProxyRunning.
  destruct j as [|j].
  - rewrite Nat.add_0_r in Hup. rewrite Hup. unfold ret. simpl.
    by rewrite Nat.add_0_r.
  - assert (health h n = false) as H0.
    { specialize (Hdown O ltac:(lia)). by rewrite Nat.add_0_r in Hdown. }
    rewrite H0. unfold bind, emit.
    rewrite (IH j (S n)); [by rewrite Nat.add_succ_comm|lia| |].
    + intros i Hi. specialize (Hdown (S i) ltac:(lia)).
      by rewrite Nat.add_succ_comm.
    + by rewrite Nat.add_succ_comm.
Qed.

Lemma validateProxyDir_ok h n :
  existsSync h (PROXY_DIR h) = true →
  existsSync h (join [PROXY_DIR h; js "src"; js "index.js"]) = true →
  validateProxyDir h n = ([], Some (tt, n)).
Proof. unfold validateProxyDir. by intros -> ->. Qed.

Lemma startProxy_run h bin n :
  existsSync h (PROXY_DIR h) = true →
  existsSync h (join [PROXY_DIR h; js "src"; js "index.js"]) = true →
  nodeBin h = Some bin →
  startProxy h n = (trace (startProxy h), Some (tt, n)).
Proof.
  intros Hd Hi Hb.
  unfold trace, startProxy, requireNodeBin, validateProxyDir.
  rewrite Hd, Hi, Hb. reflexivity.
Qed.

Lemma isProxyRunning_run h n :
  isProxyRunning h n
  = ([Probe (PROXY_URL (env h) ++ js "/health") (health h n)],
     Some (health h n, S n)).
Proof. reflexivity. Qed.

(** One step of a run of [cmdStart] whose first part is known. *)
Ltac run_step :=
  eapply bind_eq;
  [ first [ by apply validateProxyDir_ok
          | apply configureClaudeSettings_run
          | apply isProxyRunning_run
          | by eapply startProxy_run
          | reflexivity
          | by apply waitForProxy_timeout
          | by apply waitForProxy_healthy ] | ].

(** C7. When the proxy is down and gets started, [cmdStart] waits for it
    with at most 15 probes of the health endpoint, each after a sleep of
    1000 ms.  If all 15 fail, the run is exactly these 15 attempts followed
    by the two error messages and [process.exit(1)]; if the attempt number
    [j] (from 0) is the first to succeed, the run has [j] failed attempts,
    then the successful one, goes on to launch the coding CLI and makes no
    further probe and no exit. *)
Theorem cmdStart_wait_budget
    (JSON_parse : list N → option json) (h : host) (bin : list N) :
  existsSync h (PROXY_DIR h) = true →
  existsSync h (join [PROXY_DIR h; js "src"; js "index.js"]) = true →
  nodeBin h = Some bin →
  health h 0 = false →
  ((∀ i, (i < 15)%nat → health h (1 + i) = false) →
     trace (cmdStart JSON_parse h)
     = beforeWait JSON_parse h
       ++ concat (replicate 15 (failedAttempt h))
       ++ [StdoutWrite [10%N]; Console err ProxyFailedToStart;
           Console err (CheckProxyCommand (PROXY_PORT (env h))); Exit 1]
     ∧ outcome (cmdStart JSON_parse h) = None)
  ∧ (∀ j, (j < 15)%nat →
       (∀ i, (i < j)%nat → health h (1 + i) = false) →
       health h (1 + j) = true →
       ∃ rest,
         trace (cmdStart JSON_parse h)
         = beforeWait JSON_parse h
           ++ concat (replicate j (failedAttempt h))
           ++ [Sleep 1000; Probe (PROXY_URL (env h) ++ js "/health") true;
               StdoutWrite [10%N];
               Console ok (ProxyStarted (PROXY_URL (env h)))]
           ++ rest
         ∧ Forall (fun e => match e with
                            | Probe _ _ | Exit _ | Sleep _ => False
                            | _ => True
                            end) rest
         ∧ outcome (cmdStart JSON_parse h) = Some tt).
Proof.
  intros Hd Hi Hb H0. split.
  - intros Hdown.
    eassert (cmdStart JSON_parse h O = (_, None)) as Hrun.
    { unfold cmdStart. do 4 run_step. rewrite H0.
      eapply bind_eq_exit. do 2 run_step. reflexivity. }
    unfold trace at 1, outcome, beforeWait. rewrite Hrun, H0. cbn [fst snd].
    split; [|reflexivity]. by rewrite <- !app_assoc.
  - intros j Hj Hdown Hup.
    eassert (cmdStart JSON_parse h O = (_, Some (tt, _))) as Hrun.
    { unfold cmdStart. do 4 run_step. rewrite H0.
      eapply bind_eq; [|reflexivity]. do 2 run_step. reflexivity. }
    unfold trace at 1, outcome, beforeWait. rewrite Hrun, H0. cbn [fst snd].
    eexists. split_and!; [by rewrite <- !app_assoc| |reflexivity].
    repeat constructor.
Qed.

Lemma cmdStart_wait_budget_witness :
  let h := exampleHost None Absent Absent (fun _ => false) in
  trace (cmdStart JSON.parse h)
  = beforeWait JSON.parse h
    ++ concat (replicate 15 (failedAttempt h))
    ++ [StdoutWrite [10%N]; Console err ProxyFailedToStart;
        Console err (CheckProxyCommand (PROXY_PORT (env h))); Exit 1]
  ∧ outcome (cmdStart JSON.parse h) = None.
Proof.
  refine (proj1 (cmdStart_wait_budget JSON.parse _ (js "/usr/bin/node") _ _ _ _) _).
  - vm_compute. reflexivity.
  - vm_compute. reflexivity.
  - reflexivity.
  - reflexivity.
  - intros i _. reflexivity.
Defined.

(** * Further properties *)

(** A numeral without leading zero of length [k] is at least 10^(k-1). *)
Lemma digitsValue_lower t :
  t ≠ [] → Forall (fun c => (48 ≤ c ≤ 57)%N) t → head t ≠ Some 48%N →
  10 ^ (Z.of_nat (length t) - 1) ≤ digitsValue t.
Proof.
  induction t as [|c t IH] using rev_ind; intros Hne Hd Hh; [done|].
  apply Forall_app in Hd as [Ht Hc]. inversion_clear Hc.
  rewrite digitsValue_snoc, length_app. unfold digitValue. simpl length.
  destruct t as [|d t].
  - simpl in *. assert (c ≠ 48%N) by congruence.
    change (digitsValue []) with 0. change (10 ^ (1 - 1)) with 1. lia.
  - specialize (IH ltac:(done) Ht Hh). simpl length in *.
    replace (Z.of_nat (S (length t) + 1) - 1) with (Z.succ (Z.of_nat (S (length t)) - 1)) by lia.
    rewrite Z.pow_succ_r by lia. lia.
Qed.

Lemma canonicalDecimal_port_length t n :
  canonicalDecimal t n → 1 ≤ n ≤ 65535 → (1 ≤ length t ≤ 5)%nat.
Proof.
  intros (Hne & Hd & Hh & Hv) Hn.
  assert (head t ≠ Some 48%N) as Hh'.
  { intros E. rewrite (Hh E) in Hv. vm_compute in Hv. lia. }
  pose proof (digitsValue_lower t Hne Hd Hh') as Hlow.
  split; [destruct t; [done|simpl; lia]|].
  destruct (le_lt_dec (length t) 5) as [|Hbig]; [done|].
  assert (10 ^ 5 ≤ 10 ^ (Z.of_nat (length t) - 1)) by (apply Z.pow_le_mono_r; lia).
  change (10 ^ 5) with 100000 in *. lia.
Qed.

Lemma PROXY_PORT_canonical (e : gmap (list N) (list N)) :
  ∃ n, 1 ≤ n ≤ 65535 ∧ canonicalDecimal (PROXY_PORT e) n.
Proof.
  unfold PROXY_PORT.
  destruct (sanitizePort (e !! js "VERTEXHUB_PORT")) as [[|c r]|] eqn:E.
  - exists 8090. split; [lia|]. unfold canonicalDecimal. split_and!; try done.
    repeat constructor; by vm_compute.
  - destruct (e !! js "VERTEXHUB_PORT") as [s|]; [|done].
    apply sanitizePort_canonical in E as [-> Hn]. done.
  - exists 8090. split; [lia|]. unfold canonicalDecimal. split_and!; try done.
    repeat constructor; by vm_compute.
Qed.

(** X1. [PROXY_PORT] is, whatever the environment holds, the canonical
    decimal numeral of a port between 1 and 65535: one to five decimal
    digits and nothing else. *)
Theorem PROXY_PORT_is_a_port (e : gmap (list N) (list N)) :
  ∃ n, 1 ≤ n ≤ 65535 ∧ canonicalDecimal (PROXY_PORT e) n
       ∧ (1 ≤ length (PROXY_PORT e) ≤ 5)%nat.
Proof.
  destruct (PROXY_PORT_canonical e) as (n & Hn & Hc).
  exists n. split; [done|]. split; [done|].
  eapply canonicalDecimal_port_length; done.
Qed.

(** X2. [sanitizePort] is idempotent: a value it has accepted is accepted
    again and unchanged, and what it has rejected stays rejected. *)
Theorem sanitizePort_idempotent (v : option (list N)) :
  sanitizePort (sanitizePort v) = sanitizePort v.
Proof.
  destruct v as [s|]; [|done].
  destruct (sanitizePort (Some s)) as [r|] eqn:E; [|done].
  pose proof E as E'. apply sanitizePort_canonical in E' as [-> _].
  by rewrite <- sanitizePort_trim.
Qed.

Lemma stopProxy_run h n :
  stopProxy h n
  = (List.map (execFuser h)
       (if bool_decide (js "8080" = PROXY_PORT (env h))
        then [js "8080"] else [js "8080"; PROXY_PORT (env h)])
     ++ [Sleep 2000], Some (tt, n)).
Proof. unfold stopProxy. rewrite Set_values_pair. by case_bool_decide. Qed.


Lemma filter_id_iff {A} (p : A → bool) (l : list A) :
  List.filter p l = l ↔ Forall (fun x => p x = true) l.
Proof.
  split.
  - intros <-. apply filter_Forall.
  - induction 1 as [|x l Hx _ IH]; simpl; [done|]. by rewrite Hx, IH.
Qed.

(** X4. [sanitizeForTerminal] works code unit by code unit: cleaning a
    concatenation gives the concatenation of the cleaned parts; and it
    returns its argument unchanged exactly when the argument has no control
    character. *)
Theorem sanitizeForTerminal_concat_clean (a b : list N) :
  sanitizeForTerminal (a ++ b) = sanitizeForTerminal a ++ sanitizeForTerminal b
  ∧ (sanitizeForTerminal a = a ↔ Forall (fun c => ¬ controlChar c) a).
Proof.
  unfold sanitizeForTerminal, deleteAll. split.
  - apply List.filter_app.
  - rewrite filter_id_iff. apply Forall_iff. intros c.
    rewrite negb_true_iff, <- controlClass_spec.
    by destruct (classMatches controlClass c).
Qed.

Lemma objectLiteral_key (props : list (list N * json)) (k : list N) :
  k ∈ props.*1 → ∃ v : json, (k, v) ∈ props.
Proof.
  intros ((k' & v) & -> & Hin)%list_elem_of_fmap. by exists v.
Qed.

Lemma objectLiteral_idemp base props :
  NoDup props.*1 →
  objectLiteral (objectLiteral base props) props = objectLiteral base props.
Proof.
  intros Hnd. apply map_eq. intros k.
  destruct (decide (k ∈ props.*1)) as [Hin|Hout].
  - destruct (objectLiteral_key _ _ Hin) as [v Hv].
    by rewrite !(objectLiteral_lookup _ props k v).
  - by rewrite !objectLiteral_lookup_other.
Qed.

(** X5. The merge [settings.env = { ...(settings.env || {}), ... }] is
    idempotent: on settings that have been through it, it changes
    nothing. *)
Theorem mergeEnv_idempotent (h : host) (settings : gmap (list N) json) :
  mergeEnv h (mergeEnv h settings) = mergeEnv h settings.
Proof.
  unfold mergeEnv at 1 2. rewrite lookup_insert_eq. cbn [ToBoolean ownProperties].
  rewrite objectLiteral_idemp by apply fixedEnv_NoDup.
  apply insert_insert_eq.
Qed.

(** X6. When the settings file is there but its text is not JSON, or is
    JSON for something that is not an object (null, a boolean, a number, a
    string, an array), [configureClaudeSettings] writes the settings file
    once, and what it writes is a document with the one key env, which holds
    the seven fixed variables and nothing else. *)
Theorem corrupt_settings_replaced parse h text :
  fs h (CLAUDE_SETTINGS_FILE h) = File text →
  parse text = None ∨ (∃ v, parse text = Some v ∧ ∀ o, v ≠ JObj o) →
  writesTo (CLAUDE_SETTINGS_FILE h) (trace (configureClaudeSettings parse h))
  = [JObj {[ js "env" := JObj (list_to_map (fixedEnv h)) ]}].
Proof.
  intros Hf Hp. rewrite settings_written.
  assert (loadSettings parse h = ∅) as ->.
  { unfold loadSettings, tryParse. rewrite Hf.
    destruct Hp as [->|(v & -> & Hv)]; [done|]. by apply ensurePlainObject_other. }
  unfold mergeEnv. rewrite lookup_empty. cbn [ownProperties].
  reflexivity.
Qed.

Lemma corrupt_settings_replaced_witness :
  let h := exampleHost None (File (jsonText "[1,2")) Absent (fun _ => true) in
  writesTo (CLAUDE_SETTINGS_FILE h) (trace (configureClaudeSettings JSON.parse h))
  = [JObj {[ js "env" := JObj (list_to_map (fixedEnv h)) ]}].
Proof.
  intros h. apply (corrupt_settings_replaced JSON.parse h (jsonText "[1,2")).
  - reflexivity.
  - left. reflexivity.
Defined.

Lemma health_first_or_never (f : nat → bool) (k : nat) :
  (∃ j, (j < k)%nat ∧ (∀ i, (i < j)%nat → f i = false) ∧ f j = true)
  ∨ (∀ i, (i < k)%nat → f i = false).
Proof.
  induction k as [|k [(j & Hj & Hdown & Hup)|Hdown]].
  - right. intros i Hi. lia.
  - left. exists j. split_and!; [lia|done..].
  - destruct (f k) eqn:E.
    + left. exists k. split_and!; [lia|done..].
    + right. intros i Hi. destruct (decide (i = k)) as [->|]; [done|].
      apply Hdown. lia.
Qed.

Lemma validateProxyDir_no_checkout h n :
  existsSync h (PROXY_DIR h) = false →
  validateProxyDir h n
  = ([Console err ProxyDirNotFound; Console err CloneTheProxy; Exit 1], None).
Proof. unfold validateProxyDir. by intros ->. Qed.

Lemma validateProxyDir_no_entry_point h n :
  existsSync h (PROXY_DIR h) = true →
  existsSync h (join [PROXY_DIR h; js "src"; js "index.js"]) = false →
  validateProxyDir h n
  = ([Console err EntryPointNotFound; Console err ProxyDirCorrupted; Exit 1], None).
Proof. unfold validateProxyDir. by intros -> ->. Qed.

Lemma startProxy_no_node h n :
  existsSync h (PROXY_DIR h) = true →
  existsSync h (join [PROXY_DIR h; js "src"; js "index.js"]) = true →
  nodeBin h = None →
  startProxy h n = ([Console err NodeNotFound; Console err InstallNode; Exit 1], None).
Proof.
  intros Hd Hi Hb. unfold startProxy, requireNodeBin, validateProxyDir.
  rewrite Hd, Hi, Hb. reflexivity.
Qed.

Lemma startProxy_trace h bin :
  existsSync h (PROXY_DIR h) = true →
  existsSync h (join [PROXY_DIR h; js "src"; js "index.js"]) = true →
  nodeBin h = Some bin →
  trace (startProxy h)
  = [Console log (StartingProxy (PROXY_PORT (env h)));
     Spawn bin [join [PROXY_DIR h; js "src"; js "index.js"]]
       {| spawn_env :=
            <[js "HOST" := js "127.0.0.1"]>
              (<[js "PORT" := PROXY_PORT (env h)]> (env h));
          spawn_cwd := Some (PROXY_DIR h);
          spawn_detached := true |}].
Proof.
  intros Hd Hi Hb. unfold trace, startProxy, requireNodeBin, validateProxyDir.
  rewrite Hd, Hi, Hb. reflexivity.
Qed.

(** Every run of [cmdStart] has one of the six shapes of [StartRun]. *)
Lemma cmdStart_runs parse h :
  StartRun parse h (trace (cmdStart parse h)) (outcome (cmdStart parse h)).
Proof.
  unfold trace at 1, outcome.
  destruct (existsSync h (PROXY_DIR h)) eqn:Hd; cycle 1.
  { eassert (cmdStart parse h O = (_, None)) as ->.
    { unfold cmdStart. run_step.
      eapply bind_eq_exit. by apply validateProxyDir_no_checkout. }
    by apply start_no_checkout. }
  destruct (existsSync h (join [PROXY_DIR h; js "src"; js "index.js"])) eqn:Hi;
    cycle 1.
  { eassert (cmdStart parse h O = (_, None)) as ->.
    { unfold cmdStart. run_step.
      eapply bind_eq_exit. by apply validateProxyDir_no_entry_point. }
    by apply start_no_entry_point. }
  destruct (health h 0) eqn:H0.
  { eassert (cmdStart parse h O = (_, Some (tt, _))) as ->.
    { unfold cmdStart. do 4 run_step. rewrite H0. reflexivity. }
    rewrite H0. cbn [fst snd].
    replace (fst <$> Some ((), 1%nat)) with (Some ()) by done.
    by apply start_already_running. }
  destruct (nodeBin h) as [bin|] eqn:Hb; cycle 1.
  { eassert (cmdStart parse h O = (_, None)) as ->.
    { unfold cmdStart. do 4 run_step. rewrite H0.
      eapply bind_eq_exit. eapply bind_eq_exit. by apply startProxy_no_node. }
    rewrite H0. cbn [fst snd]. by apply start_no_node. }
  destruct (health_first_or_never (fun i => health h (1 + i)) 15)
    as [(j & Hj & Hdown & Hup)|Hdown].
  - eassert (cmdStart parse h O = (_, Some (tt, _))) as ->.
    { unfold cmdStart. do 4 run_step. rewrite H0.
      eapply bind_eq; [|reflexivity]. do 2 run_step. reflexivity. }
    rewrite H0. cbn [fst snd].
    replace (fst <$> Some ((), S (1 + j))) with (Some ()) by done.
    pose proof (start_healthy parse h bin j Hd Hi H0 Hb Hj Hdown Hup) as R.
    unfold beforeWait in R. repeat rewrite <- app_assoc in R.
    repeat rewrite <- app_assoc. cbn [app] in R |- *. exact R.
  - eassert (cmdStart parse h O = (_, None)) as ->.
    { unfold cmdStart. do 4 run_step. rewrite H0.
      eapply bind_eq_exit. do 2 run_step. reflexivity. }
    rewrite H0. cbn [fst snd].
    pose proof (start_timeout parse h bin Hd Hi H0 Hb Hdown) as R.
    unfold beforeWait in R. repeat rewrite <- app_assoc in R.
    repeat rewrite <- app_assoc. cbn [app] in R |- *. exact R.
Qed.

#[local] Arguments js : simpl never.
#[local] Arguments failedAttempt : simpl never.

Lemma guarded_app {E} (g tr : E → bool) seen a b :
  guarded g tr seen (a ++ b)
  = guarded g tr seen a && guarded g tr (seen || existsb g a) b.
Proof.
  revert seen. induction a as [|e a IH]; intros seen; simpl.
  - by rewrite orb_false_r.
  - rewrite IH, <- !andb_assoc, <- orb_assoc. done.
Qed.

Lemma guarded_quiet {E} (g tr : E → bool) seen a :
  Forall (fun e => tr e = false) a → guarded g tr seen a = true.
Proof.
  intros Ha. revert seen. induction Ha as [|e a He _ IH]; intros seen; simpl; [done|].
  by rewrite He, IH.
Qed.

Lemma guarded_seen {E} (g tr : E → bool) a : guarded g tr true a = true.
Proof. induction a as [|e a IH]; simpl; [done|]. by rewrite orb_true_r. Qed.

Lemma guarded_spec {E} (g tr : E → bool) t pre e post :
  guarded g tr false t = true → t = pre ++ e :: post → tr e = true →
  ∃ x, x ∈ pre ∧ g x = true.
Proof.
  intros Hg -> He. rewrite guarded_app in Hg. apply andb_true_iff in Hg as [_ Hg].
  simpl in Hg. rewrite He in Hg. simpl in Hg.
  apply andb_true_iff in Hg as [Hg _].
  apply existsb_exists in Hg as (x & Hx & Hgx). exists x. split; [|done].
  by apply list_elem_of_In.
Qed.

Lemma configureClaudeSettings_events parse h :
  Forall configEvent (trace (configureClaudeSettings parse h)).
Proof.
  unfold trace, configureClaudeSettings, bind, when, emit, ret.
  destruct (tryParse parse h (CLAUDE_SETTINGS_FILE h)) as [v1 [|]];
  destruct (tryParse parse h (CLAUDE_JSON_FILE h)) as [v2 [|]]; cbn;
  destruct (ToBoolean _); cbn; repeat constructor.
Qed.

Lemma settings_write_exists parse h :
  existsb (isSettingsWrite h) (trace (configureClaudeSettings parse h)) = true.
Proof.
  pose proof (settings_written parse h) as Hw.
  induction (trace (configureClaudeSettings parse h)) as [|e t IH]; [done|].
  simpl. destruct e; simpl in *; auto.
  case_bool_decide; simpl; [done|auto].
Qed.

Lemma failedAttempts_quiet (P : event → Prop) h j :
  Forall P (failedAttempt h) → Forall P (concat (replicate j (failedAttempt h))).
Proof.
  intros HP. induction j as [|j IH]; [constructor|].
  change (Forall P (failedAttempt h ++ concat (replicate j (failedAttempt h)))).
  by apply Forall_app.
Qed.

Ltac quiet :=
  repeat first
    [ apply Forall_app; split
    | apply failedAttempts_quiet
    | apply Forall_cons; split; [reflexivity|]
    | apply Forall_nil; exact I
    | eapply Forall_impl; [apply configureClaudeSettings_events|];
      intros []; simpl; done ].

Ltac guard_go :=
  rewrite ?guarded_app;
  cbn [guarded existsb isBareSpawn isHealthyProbe isSpawn isSettingsWrite
       negb orb andb launchClaude];
  rewrite ?guarded_quiet by quiet;
  rewrite ?orb_true_r, ?andb_true_r; try done.

(** X7. [cmdStart] launches the coding CLI only after a probe of the
    health endpoint has found the proxy running: in every run, whatever
    comes before the launch has a healthy probe in it. *)
Theorem claude_after_healthy_probe parse h pre post :
  trace (cmdStart parse h) = pre ++ launchClaude h :: post →
  ∃ u, Probe u true ∈ pre.
Proof.
  intros Ht.
  assert (guarded isHealthyProbe isBareSpawn false (trace (cmdStart parse h)) = true)
    as Hg.
  { destruct (cmdStart_runs parse h) as [| | | |bin j ? ? ? ? ? ? ?|bin];
      try done; unfold beforeWait; try (erewrite startProxy_trace by done);
      guard_go. }
  destruct (guarded_spec _ _ _ _ _ _ Hg Ht eq_refl) as (x & Hx & Hp).
  destruct x as [| | | | | | | |u [|]|]; try done. by exists u.
Qed.

Lemma claude_after_healthy_probe_witness :
  let h := exampleHost None Absent Absent (fun n => bool_decide (n = 3%nat)) in
  ∃ u, Probe u true
       ∈ beforeWait JSON.parse h
         ++ concat (replicate 2 (failedAttempt h))
         ++ [Sleep 1000; Probe (PROXY_URL (env h) ++ js "/health") true;
             StdoutWrite [10%N]; Console ok (ProxyStarted (PROXY_URL (env h)));
             Console log LaunchingClaude].
Proof.
  intros h. apply (claude_after_healthy_probe JSON.parse h _ []).
  reflexivity.
Defined.

(** X8. [cmdStart] spawns no process, the proxy or the coding CLI, before
    it has written the settings file: in every run, whatever comes before a
    spawn has a write of the settings file in it. *)
Theorem settings_written_before_spawn parse h pre command args opts post :
  trace (cmdStart parse h) = pre ++ Spawn command args opts :: post →
  ∃ doc, WriteFileSecure (CLAUDE_SETTINGS_FILE h) doc ∈ pre.
Proof.
  intros Ht.
  assert (guarded (isSettingsWrite h) isSpawn false (trace (cmdStart parse h)) = true)
    as Hg.
  { destruct (cmdStart_runs parse h) as [| | | |bin j ? ? ? ? ? ? ?|bin];
      try done; unfold beforeWait; try (erewrite startProxy_trace by done);
      repeat rewrite <- app_assoc;
      rewrite ?guarded_app, ?existsb_app, ?settings_write_exists;
      repeat (rewrite orb_true_l || rewrite orb_true_r);
      rewrite ?guarded_seen; guard_go. }
  destruct (guarded_spec _ _ _ _ _ _ Hg Ht eq_refl) as (x & Hx & Hp).
  destruct x; try done. simpl in Hp. apply bool_decide_eq_true in Hp as ->.
  by eexists.
Qed.

Lemma settings_written_before_spawn_witness :
  let h := exampleHost None Absent Absent (fun n => bool_decide (n = 3%nat)) in
  ∃ doc, WriteFileSecure (CLAUDE_SETTINGS_FILE h) doc
         ∈ [ConsoleLog StartBanner]
           ++ trace (configureClaudeSettings JSON.parse h)
           ++ [Probe (PROXY_URL (env h) ++ js "/health") false;
               Console log (StartingProxy (PROXY_PORT (env h)))].
Proof.
  intros h.
  eapply (settings_written_before_spawn JSON.parse h _ (js "/usr/bin/node")).
  reflexivity.
Defined.

Lemma sleepTotal_app a b : sleepTotal (a ++ b) = sleepTotal a + sleepTotal b.
Proof.
  unfold sleepTotal. induction a as [|e a IH]; simpl; [done|].
  destruct e; lia.
Qed.

Lemma probeCount_app a b : probeCount (a ++ b) = (probeCount a + probeCount b)%nat.
Proof. unfold probeCount. by rewrite List.filter_app, length_app. Qed.

Lemma configure_no_wait parse h :
  sleepTotal (trace (configureClaudeSettings parse h)) = 0
  ∧ probeCount (trace (configureClaudeSettings parse h)) = O.
Proof.
  pose proof (configureClaudeSettings_events parse h) as H.
  unfold sleepTotal, probeCount.
  induction H as [|e t He _ [IH1 IH2]]; [done|].
  destruct e; simpl in *; try done.
Qed.

Lemma failedAttempts_wait h j :
  sleepTotal (concat (replicate j (failedAttempt h))) = 1000 * Z.of_nat j
  ∧ probeCount (concat (replicate j (failedAttempt h))) = j.
Proof.
  induction j as [|j [IH1 IH2]]; [done|].
  change (concat (replicate (S j) (failedAttempt h)))
    with (failedAttempt h ++ concat (replicate j (failedAttempt h))).
  rewrite sleepTotal_app, probeCount_app, IH1, IH2.
  change (sleepTotal (failedAttempt h)) with 1000.
  change (probeCount (failedAttempt h)) with 1%nat. lia.
Qed.

(** X9. Whatever the host, a run of [cmdStart] asks [setTimeout] for at
    most 15 seconds in all, and probes the health endpoint at most 16
    times. *)
Theorem cmdStart_waits_at_most_15s parse h :
  sleepTotal (trace (cmdStart parse h)) ≤ 15000
  ∧ (probeCount (trace (cmdStart parse h)) ≤ 16)%nat.
Proof.
  destruct (configure_no_wait parse h) as [Hs Hp].
  destruct (cmdStart_runs parse h) as [| | | |bin j ? ? ? ? ? ? ?|bin];
    unfold beforeWait; try (erewrite startProxy_trace by done);
    rewrite ?sleepTotal_app, ?probeCount_app, ?Hs, ?Hp;
    try (destruct (failedAttempts_wait h j) as [-> ->]);
    try (destruct (failedAttempts_wait h 15) as [-> ->]);
    cbn [sleepTotal probeCount foldr List.filter length launchClaude]; lia.
Qed.

(** X10. Without the checkout of the proxy, or without its entry point,
    [cmdStart] exits with code 1, and all it has done is print: the banner
    and error messages.  No directory is made, no file written, no probe
    sent, no process spawned. *)
Theorem cmdStart_without_checkout parse h :
  existsSync h (PROXY_DIR h) = false
  ∨ existsSync h (join [PROXY_DIR h; js "src"; js "index.js"]) = false →
  outcome (cmdStart parse h) = None
  ∧ last (trace (cmdStart parse h)) = Some (Exit 1)
  ∧ Forall (fun e => match e with
                     | ConsoleLog _ | Console err _ | Exit _ => True
                     | _ => False
                     end) (trace (cmdStart parse h)).
Proof.
  intros Hbad.
  destruct (cmdStart_runs parse h) as [| | | |bin j ? ? ? ? ? ? ?|bin];
    try (destruct Hbad; congruence); split_and!; try done; repeat constructor.
Qed.

Lemma cmdStart_without_checkout_witness :
  let h := withoutCheckout (exampleHost None Absent Absent (fun _ => true)) in
  outcome (cmdStart JSON.parse h) = None
  ∧ last (trace (cmdStart JSON.parse h)) = Some (Exit 1)
  ∧ Forall (fun e => match e with
                     | ConsoleLog _ | Console err _ | Exit _ => True
                     | _ => False
                     end) (trace (cmdStart JSON.parse h)).
Proof.
  intros h. apply (cmdStart_without_checkout JSON.parse h). left. reflexivity.
Defined.

(** X11. [cmdAccounts] spawns a process only when its probe has found the
    proxy running and the accounts script is on disk; the process is the
    node binary, run on the script and then on allowed subcommands only,
    which are a subsequence of the arguments after the command, with PORT
    set to the proxy port. *)
Theorem cmdAccounts_launch_is_filtered (h : host) :
  let script := join [PROXY_DIR h; js "src"; js "cli"; js "accounts.js"] in
  Forall (fun e =>
            match e with
            | Spawn command args opts =>
                health h 0 = true
                ∧ existsSync h script = true
                ∧ nodeBin h = Some command
                ∧ spawn_env opts !! js "PORT" = Some (PROXY_PORT (env h))
                ∧ ∃ sub, args = script :: sub
                         ∧ Forall allowed sub ∧ sublist sub (drop 3 (argv h))
            | _ => True
            end) (trace (cmdAccounts h)).
Proof.
  intros script. unfold trace, cmdAccounts, bind, isProxyRunning.
  destruct (health h 0) eqn:H0; cbn [negb]; [|by repeat constructor].
  unfold validateProxyDir.
  destruct (existsSync h (PROXY_DIR h)); cbn [negb]; [|by repeat constructor].
  destruct (existsSync h (join [PROXY_DIR h; js "src"; js "index.js"]));
    cbn [negb]; [|by repeat constructor].
  unfold requireNodeBin.
  destruct (nodeBin h) as [bin|]; [|by repeat constructor].
  fold script.
  destruct (existsSync h script) eqn:Hs; cbn [negb]; [|by repeat constructor].
  cbn. repeat constructor; try done.
  - apply lookup_insert_eq.
  - exists (subArgs (argv h)). split_and!; [done| |apply filter_sublist].
    eapply Forall_impl; [apply filter_Forall|]. intros a. apply allowed_spec.
Qed.

(** The rules of [always] and [xalways]. *)
Lemma always_ret P {A} (a : A) : always P (ret a).
Proof. intros n. constructor. Qed.

Lemma always_emit (P : event → Prop) e : P e → always P (emit e).
Proof. intros He n. by repeat constructor. Qed.

Lemma always_exit (P : event → Prop) {A} code : P (Exit code) → always P (@exit A code).
Proof. intros He n. by repeat constructor. Qed.

Lemma always_bind P {A B} (m : M A) (f : A → M B) :
  always P m → (∀ a, always P (f a)) → always P (bind m f).
Proof.
  intros Hm Hf n. unfold bind. specialize (Hm n).
  destruct (m n) as [t [[a n']|]]; [|done].
  specialize (Hf a n'). destruct (f a n') as [t' r]. by apply Forall_app.
Qed.

Lemma xalways_ret P {A} (a : A) : xalways P (xret a).
Proof. intros n. constructor. Qed.

Lemma xalways_out (P : output → Prop) o : P o → xalways P (out o).
Proof. intros Ho n. by repeat constructor. Qed.

Lemma xalways_exit (P : output → Prop) {A} code :
  P (Ev (Exit code)) → xalways P (@xexit A code).
Proof. intros He n. by repeat constructor. Qed.

Lemma xalways_uncaught (P : output → Prop) {A} : P Uncaught → xalways P (@uncaught A).
Proof. intros He n. by repeat constructor. Qed.

Lemma xalways_bind P {A B} (m : X A) (f : A → X B) :
  xalways P m → (∀ a, xalways P (f a)) → xalways P (xbind m f).
Proof.
  intros Hm Hf n. unfold xbind. specialize (Hm n).
  destruct (m n) as [t [[a n']|]]; [|done].
  specialize (Hf a n'). destruct (f a n') as [t' r]. by apply Forall_app.
Qed.

Lemma xalways_lift (P : output → Prop) {A} (m : M A) :
  always (fun e => P (Ev e)) m → xalways P (lift m).
Proof.
  intros Hm n. unfold lift. specialize (Hm n). destruct (m n) as [t r].
  by apply Forall_fmap.
Qed.


(** The kinds of events of the functions of the first part. *)
Lemma validateProxyDir_always (P : event → Prop) h :
  (∀ m, P (Console err m)) → P (Exit 1) → always P (validateProxyDir h).
Proof.
  intros Hc He. unfold validateProxyDir.
  repeat case_match;
    repeat first [apply always_bind; [|intros ?] | by apply always_emit
                 | by apply always_exit | apply always_ret].
Qed.

Lemma requireNodeBin_always (P : event → Prop) h :
  (∀ m, P (Console err m)) → P (Exit 1) → always P (requireNodeBin h).
Proof.
  intros Hc He. unfold requireNodeBin.
  repeat case_match;
    repeat first [apply always_bind; [|intros ?] | by apply always_emit
                 | by apply always_exit | apply always_ret].
Qed.

Lemma isProxyRunning_always (P : event → Prop) h :
  (∀ u b, P (Probe u b)) → always P (isProxyRunning h).
Proof. intros Hp n. by repeat constructor. Qed.

Lemma stopProxy_always (P : event → Prop) h :
  (∀ c f, P (ExecSync c f)) → P (Sleep 2000) → always P (stopProxy h).
Proof.
  intros Hx Hs n. rewrite stopProxy_run. cbn [fst].
  apply Forall_app. split; [|by repeat constructor].
  apply Forall_forall. intros e (p & <- & _)%list_elem_of_In%in_map_iff.
  apply Hx.
Qed.

Lemma configureClaudeSettings_always (P : event → Prop) parse h :
  (∀ d, P (MkdirSync d)) → (∀ l m, P (Console l m)) →
  (∀ f d, P (WriteFileSecure f d)) →
  always P (configureClaudeSettings parse h).
Proof.
  intros Hm Hc Hw n. rewrite configureClaudeSettings_run. cbn [fst].
  eapply Forall_impl; [apply configureClaudeSettings_events|].
  intros []; simpl; auto; done.
Qed.





Lemma xbind_eq {A B} (m : X A) (f : A → X B) n t a n' t' r :
  m n = (t, Some (a, n')) → f a n' = (t', r) → xbind m f n = (t ++ t', r).
Proof. unfold xbind. by intros -> ->. Qed.



Lemma xforEach_models nts (l : list json) (ids : list (list N)) n :
  Forall2 (modelId nts) l ids →
  xforEach l (fun model =>
    match getProp model (js "id") with
    | None => uncaught
    | Some id =>
        match ToString nts (orElse id (JStr [])) with
        | None => uncaught
        | Some s => out (Line (js "  " ++ c_cyan ++ displayId s ++ c_reset))
        end
    end) n
  = (Line <$> (modelLine <$> ids), Some (tt, n)).
Proof.
  induction 1 as [|model id l ids (v & Hv & Hs) _ IH]; [done|].
  cbn [xforEach].
  change (Line <$> (modelLine <$> id :: ids))
    with ([Line (modelLine id)] ++ (Line <$> (modelLine <$> ids))).
  eapply xbind_eq; [|exact IH].
  by rewrite Hv, Hs.
Qed.

(** X14. When the proxy is running and answers the request for the models
    with an object whose data is an array, every entry of which has an
    identifier that converts to a string, [cmdModels] prints the header, one
    line for each entry in the order of the array, with the identifier
    without its control characters, then the total, which is the length of
    the array, and returns. *)
Theorem cmdModels_lists_every_model nts h w status o l ids :
  health h 0 = true →
  modelsResponse w = Http status (Some (JObj o)) → response_ok status = true →
  o !! js "data" = Some (JArr l) →
  Forall2 (modelId nts) l ids →
  xtrace (cmdModels nts h w)
  = [Ev (Probe (PROXY_URL (env h) ++ js "/health") true); Line modelsHeader]
    ++ (Line <$> (modelLine <$> ids))
    ++ [Line (modelsTotal (length ids))]
  ∧ xoutcome (cmdModels nts h w) = Some tt.
Proof.
  intros H0 Hr Hok Hd Hids.
  eassert (cmdModels nts h w O = (_, Some (tt, _))) as Hrun.
  { unfold cmdModels.
    eapply xbind_eq; [reflexivity|]. rewrite H0. cbn [negb].
    eapply xbind_eq; [reflexivity|].
    eapply xbind_eq.
    { unfold getModels. rewrite Hr, Hok. reflexivity. }
    cbn [getOptional]. rewrite Hd.
    eapply xbind_eq; [reflexivity|].
    eapply xbind_eq; [by apply xforEach_models|]. reflexivity. }
  unfold xtrace, xoutcome. rewrite Hrun, H0. cbn [fst snd].
  rewrite (Forall2_length _ _ _ Hids). done.
Qed.

Lemma cmdModels_lists_every_model_witness :
  let h := exampleHost None Absent Absent (fun _ => true) in
  let w := exampleWorld
             (Http 200 (Some (JObj {[ js "data" := JArr exampleModels ]})))
             (Exited (Some 0)) in
  let ids := [js "claude-opus-4-6-thinking"; 27%N :: js "[2Jgemini"] in
  xtrace (cmdModels integerToString h w)
  = [Ev (Probe (PROXY_URL (env h) ++ js "/health") true); Line modelsHeader]
    ++ (Line <$> (modelLine <$> ids))
    ++ [Line (modelsTotal (length ids))]
  ∧ xoutcome (cmdModels integerToString h w) = Some tt.
Proof.
  intros h w ids.
  apply (cmdModels_lists_every_model integerToString h w 200
           {[ js "data" := JArr exampleModels ]} exampleModels ids).
  - reflexivity.
  - reflexivity.
  - reflexivity.
  - reflexivity.
  - repeat constructor; eexists; (split; [reflexivity|reflexivity]).
Defined.



(** The rules of [guarded] and [ordered]. *)
Lemma guarded_mono {E} (g tr : E → bool) t :
  guarded g tr false t = true → ∀ seen, guarded g tr seen t = true.
Proof.
  intros H [|]; [apply guarded_seen|done].
Qed.

Lemma ordered_bind g tr pre {A B} (m : X A) (f : A → X B) mid post :
  ordered g tr pre m mid → (∀ a, ordered g tr (mid a) (f a) post) →
  ordered g tr pre (xbind m f) post.
Proof.
  intros Hm Hf n. unfold xbind. destruct (Hm n) as [Hg Hp].
  destruct (m n) as [t [[a n']|]]; [|done].
  destruct (Hf a n') as [Hg' Hp']. destruct (f a n') as [t' r].
  cbn [fst snd] in *. rewrite guarded_app, Hg, existsb_app. cbn [andb]. split.
  - destruct (mid a) eqn:E; [by rewrite Hp, guarded_seen|by apply guarded_mono].
  - destruct r as [[b n'']|]; [|done]. intros Hb. specialize (Hp' Hb).
    destruct (mid a); [by rewrite orb_assoc, Hp|].
    cbn [orb] in Hp'. by rewrite Hp', !orb_true_r.
Qed.

Lemma ordered_quiet g tr pre {A} (m : X A) :
  xalways (fun o => tr o = false) m → ordered g tr pre m (fun _ => pre).
Proof.
  intros Hm n. split; [by apply guarded_quiet|].
  destruct (snd (m n)) as [[a n']|]; [|done]. by intros ->.
Qed.

Lemma ordered_ret g tr pre {A} (a : A) : ordered g tr pre (xret a) (fun _ => pre).
Proof. apply ordered_quiet, xalways_ret. Qed.

Lemma ordered_stop g tr pre {A} (m : X A) post :
  xalways (fun o => tr o = false) m → (∀ n, snd (m n) = None) →
  ordered g tr pre m post.
Proof.
  intros Hm Hn n. split; [by apply guarded_quiet|]. by rewrite Hn.
Qed.

Lemma ordered_trigger g tr (o : output) post :
  ordered g tr true (out o) post.
Proof. intros n. split; [apply guarded_seen|]. by cbn. Qed.

Lemma ordered_probe g tr pre h :
  (∀ u b, tr (Ev (Probe u b)) = false) → (∀ u, g (Ev (Probe u false)) = true) →
  ordered g tr pre (lift (isProxyRunning h)) (fun running => pre || negb running).
Proof.
  intros Ht Hg n. unfold lift, isProxyRunning. cbn. rewrite Ht. cbn. split; [done|].
  destruct (health h n); cbn.
  - rewrite orb_false_r. by intros ->.
  - intros _. by rewrite Hg, orb_true_r.
Qed.

Lemma isRemoteSession_spec h : isRemoteSession h = true ↔ remoteEnv (env h).
Proof.
  unfold isRemoteSession, remoteEnv. rewrite !orb_true_iff, negb_true_iff. split.
  - intros [[[H|H]|H]|H].
    + left. exists (js "SSH_CONNECTION").
      destruct (env h !! js "SSH_CONNECTION") as [[|c s]|]; try done.
      exists (c :: s). split_and!; [|done..]. rewrite !elem_of_cons. auto.
    + left. exists (js "SSH_CLIENT").
      destruct (env h !! js "SSH_CLIENT") as [[|c s]|]; try done.
      exists (c :: s). split_and!; [|done..]. rewrite !elem_of_cons. auto.
    + left. exists (js "SSH_TTY").
      destruct (env h !! js "SSH_TTY") as [[|c s]|]; try done.
      exists (c :: s). split_and!; [|done..]. rewrite !elem_of_cons. auto.
    + right. destruct (env h !! js "DISPLAY") as [[|c s]|]; auto. done.
  - intros [(name & v & Hin & Hv & Hne)|[H|H]].
    + rewrite !elem_of_cons, elem_of_nil in Hin.
      destruct v as [|c s]; [done|].
      destruct Hin as [->|[->|[->|[]]]]; rewrite Hv; auto.
    + right. by rewrite H.
    + right. by rewrite H.
Qed.

Ltac xquiet :=
  repeat first
    [ apply xalways_ret
    | apply xalways_bind; [|intros ?]
    | by apply xalways_out
    | by apply xalways_exit
    | by apply xalways_uncaught
    | apply xalways_lift;
      first [ by apply validateProxyDir_always
            | by apply requireNodeBin_always
            | by apply isProxyRunning_always
            | by apply stopProxy_always
            | by apply configureClaudeSettings_always ]
    | case_match ].

(** X16. [cmdLogin] launches the accounts manager only after a probe has
    found the proxy down: in every run, whatever comes before the spawn has
    a failed probe in it. *)
Theorem cmdLogin_spawns_after_down_probe parse h w pre command args opts post :
  xtrace (cmdLogin parse h w) = pre ++ Ev (Spawn command args opts) :: post →
  ∃ u, Ev (Probe u false) ∈ pre.
Proof.
  intros Ht.
  assert (ordered isDownProbe isSpawnOut false (cmdLogin parse h w) (fun _ => true))
    as Hord.
  { unfold cmdLogin.
    eapply ordered_bind; [apply ordered_quiet; xquiet|intros ?; cbv beta].
    eapply ordered_bind; [apply ordered_quiet; xquiet|intros ?; cbv beta].
    eapply ordered_bind; [by apply ordered_probe|intros running; cbv beta]. cbn [orb].
    eapply (ordered_bind _ _ _ _ _ (fun _ => true)).
    { destruct running; cbn [negb]; [|apply ordered_ret].
      eapply ordered_bind; [apply ordered_quiet; xquiet|intros ?; cbv beta].
      eapply ordered_bind; [apply ordered_quiet; xquiet|intros ?; cbv beta].
      eapply ordered_bind; [by apply ordered_probe|intros still; cbv beta]. cbn [orb].
      eapply (ordered_bind _ _ _ _ _ (fun _ => true)).
      - destruct still; cbn [negb]; [|apply ordered_ret].
        apply ordered_stop; [xquiet|]. intros n. reflexivity.
      - intros ?. apply ordered_quiet. xquiet. }
    intros ?.
    eapply ordered_bind; [apply ordered_quiet; xquiet|intros ?; cbv beta].
    eapply ordered_bind; [apply ordered_quiet; xquiet|intros bin; cbv beta].
    eapply ordered_bind; [apply ordered_quiet; xquiet|intros ?; cbv beta].
    eapply (ordered_bind _ _ _ _ _ (fun _ => true)); [apply ordered_trigger|intros ?; cbv beta].
    apply ordered_quiet. xquiet. }
  destruct (Hord O) as [Hg _].
  destruct (guarded_spec _ _ _ _ _ _ Hg Ht eq_refl) as (x & Hx & Hp).
  destruct x as [[| | | | | | | |u [|]|]| | | | |]; try done. by exists u.
Qed.

Lemma cmdLogin_spawns_after_down_probe_witness :
  let h := withAccounts (exampleHost None Absent Absent (fun _ => false)) in
  ∃ u, Ev (Probe u false)
       ∈ [Fixed LoginBanner;
          Ev (Probe (PROXY_URL (env h) ++ js "/health") false);
          Fixed RemoteDetected;
          Fixed (RemoteInstructions (js "user") (js "your-server"))].
Proof.
  intros h.
  eapply (cmdLogin_spawns_after_down_probe JSON.parse h
            (exampleWorld Rejected (Exited (Some 1))) _ (js "/usr/bin/node")).
  reflexivity.
Defined.

Lemma xalways_bind_result P {A B} (m : X A) (f : A → X B) :
  xalways P m →
  (∀ a, (∃ n t n', m n = (t, Some (a, n'))) → xalways P (f a)) →
  xalways P (xbind m f).
Proof.
  intros Hm Hf n. unfold xbind. specialize (Hm n).
  destruct (m n) as [t [[a n']|]] eqn:E; [|done].
  specialize (Hf a ltac:(eauto) n'). destruct (f a n') as [t' r].
  by apply Forall_app.
Qed.

Lemma requireNodeBin_result h bin :
  (∃ n t n', lift (requireNodeBin h) n = (t, Some (bin, n'))) →
  nodeBin h = Some bin.
Proof.
  intros (n & t & n' & E). unfold lift, requireNodeBin in E.
  destruct (nodeBin h); [|done]. cbn in E. congruence.
Qed.

(** X17. The process [cmdLogin] spawns is the node binary, run on the
    accounts script with add, and then --no-browser exactly when the session
    is remote (a variable of SSH is set, or DISPLAY is unset or empty), with
    PORT set to the proxy port. *)
Theorem cmdLogin_accounts_arguments parse h w :
  let script := join [PROXY_DIR h; js "src"; js "cli"; js "accounts.js"] in
  Forall (fun o =>
            match o with
            | Ev (Spawn command args opts) =>
                nodeBin h = Some command
                ∧ spawn_env opts !! js "PORT" = Some (PROXY_PORT (env h))
                ∧ ((remoteEnv (env h)
                    ∧ args = [script; js "add"; js "--no-browser"])
                   ∨ (¬ remoteEnv (env h) ∧ args = [script; js "add"]))
            | _ => True
            end) (xtrace (cmdLogin parse h w)).
Proof.
  intros script.
  set (P := fun o => match o with Ev (Spawn _ _ _) => _ | _ => True end).
  assert (xalways P (cmdLogin parse h w)) as Hall; [|apply Hall].
  unfold cmdLogin.
  apply xalways_bind; [xquiet|intros _].
  apply xalways_bind; [xquiet|intros _].
  apply xalways_bind; [xquiet|intros running].
  apply xalways_bind; [xquiet|intros _].
  apply xalways_bind; [xquiet|intros _].
  apply xalways_bind_result; [xquiet|intros bin Hbin%requireNodeBin_result].
  apply xalways_bind; [xquiet|intros _].
  apply xalways_bind; [|intros _; xquiet].
  apply xalways_out. unfold P. cbn [spawn_env].
  split_and!; [done|apply lookup_insert_eq|].
  pose proof (isRemoteSession_spec h) as Hr.
  destruct (isRemoteSession h); [left|right]; (split; [|done]).
  - by apply Hr.
  - intros Hn. apply Hr in Hn. done.
Qed.

(** X18. Unless the accounts manager exits with code 0, [cmdLogin] makes
    no directory and writes no file: the configuration of the coding CLI is
    touched only after a login that succeeded. *)
Theorem cmdLogin_failure_writes_nothing parse h w :
  accountsEnd w ≠ Exited (Some 0) →
  Forall (fun o => match o with
                   | Ev (WriteFileSecure _ _) | Ev (MkdirSync _) => False
                   | _ => True
                   end) (xtrace (cmdLogin parse h w)).
Proof.
  intros Hend.
  set (P := fun o => match o with
                     | Ev (WriteFileSecure _ _) | Ev (MkdirSync _) => False
                     | _ => True
                     end).
  assert (xalways P (cmdLogin parse h w)) as Hall; [|apply Hall].
  unfold cmdLogin.
  apply xalways_bind; [xquiet|intros _].
  apply xalways_bind; [xquiet|intros _].
  apply xalways_bind; [xquiet|intros running].
  apply xalways_bind; [xquiet|intros _].
  apply xalways_bind; [xquiet|intros _].
  apply xalways_bind; [xquiet|intros bin].
  apply xalways_bind; [xquiet|intros _].
  apply xalways_bind; [xquiet|intros _].
  destruct (accountsEnd w) as [code|msg] eqn:E; [|xquiet].
  case_bool_decide as Hc; [by subst code|xquiet].
Qed.

Lemma cmdLogin_failure_writes_nothing_witness :
  let h := withAccounts (exampleHost None Absent Absent (fun _ => false)) in
  let w := exampleWorld Rejected (Exited None) in
  Forall (fun o => match o with
                   | Ev (WriteFileSecure _ _) | Ev (MkdirSync _) => False
                   | _ => True
                   end) (xtrace (cmdLogin JSON.parse h w)).
Proof.
  intros h w. apply (cmdLogin_failure_writes_nothing JSON.parse h w).
  discriminate.
Defined.


(** X20. A path returned by [getNodeBin] is not empty and has no white
    space around it; it is what [which node] printed, trimmed, or else what
    the lookup through NVM printed, trimmed, and then [~/.nvm] exists and
    the path names something that exists. *)
Theorem getNodeBin_result h whichNode nvmNode result :
  getNodeBin h whichNode nvmNode = Some result →
  result ≠ [] ∧ trim result = result
  ∧ ((∃ text, whichNode = Some text ∧ result = trim text)
     ∨ (∃ text, nvmNode = Some text ∧ result = trim text
                ∧ existsSync h result = true
                ∧ existsSync h (join [homedir h; js ".nvm"]) = true)).
Proof.
  unfold getNodeBin. intros Hr.
  destruct whichNode as [t1|].
  - destruct (trim t1) as [|c r] eqn:E1.
    + destruct (existsSync h (join _)) eqn:Hnvm; [|done].
      destruct nvmNode as [t2|]; [|done].
      destruct (trim t2) as [|c r] eqn:E2; [done|].
      destruct (existsSync h (c :: r)) eqn:Hex; [|done].
      injection Hr as <-. rewrite <- E2, trim_idemp. split_and!; [by rewrite E2|done|].
      right. exists t2. rewrite E2. done.
    + injection Hr as <-. rewrite <- E1, trim_idemp. split_and!; [by rewrite E1|done|].
      left. by exists t1.
  - destruct (existsSync h (join _)) eqn:Hnvm; [|done].
    destruct nvmNode as [t2|]; [|done].
    destruct (trim t2) as [|c r] eqn:E2; [done|].
    destruct (existsSync h (c :: r)) eqn:Hex; [|done].
    injection Hr as <-. rewrite <- E2, trim_idemp. split_and!; [by rewrite E2|done|].
    right. exists t2. rewrite E2. done.
Qed.

Lemma getNodeBin_result_witness :
  let h := exampleHost None Absent Absent (fun _ => true) in
  let result := js "/usr/bin/node" in
  result ≠ [] ∧ trim result = result
  ∧ ((∃ text, Some (js "/usr/bin/node" ++ [10%N]) = Some text
              ∧ result = trim text)
     ∨ (∃ text, None = Some text ∧ result = trim text
                ∧ existsSync h result = true
                ∧ existsSync h (join [homedir h; js ".nvm"]) = true)).
Proof.
  intros h result.
  apply (getNodeBin_result h (Some (js "/usr/bin/node" ++ [10%N])) None result).
  reflexivity.
Defined.

Lemma Say_inj l m l' m' : Say l m = Say l' m' → m = m'.
Proof. by intros [= _ ->]. Qed.

(** X21. The listeners [startProxy] puts on the output of the proxy depend
    on a chunk only through its trimmed text; the one on stderr prints at
    most one message for a chunk, nothing for a blank chunk, and a chunk it
    echoes is cut to its first 200 code units. *)
Theorem stderr_listener_is_bounded h data :
  onStderrData h data = onStderrData h (trim data)
  ∧ onStdoutData h data = onStdoutData h (trim data)
  ∧ (length (onStderrData h data) ≤ 1)%nat
  ∧ (trim data = [] → onStderrData h data = [])
  ∧ ∀ msg, Say log msg ∈ onStderrData h data →
      ∃ text, msg = js "[proxy:stderr] " ++ text
              ∧ text `prefix_of` trim data ∧ (1 ≤ length text ≤ 200)%nat.
Proof.
  unfold onStderrData, onStdoutData. rewrite !trim_idemp. split_and!; try done.
  - repeat case_match; simpl; lia.
  - intros ->. done.
  - intros msg. repeat case_match; rewrite ?elem_of_cons, ?elem_of_nil;
      try intuition discriminate.
    intros [Heq%Say_inj|[]]. subst msg. eexists. split; [done|].
    unfold substring0. split.
    + apply prefix_take.
    + rewrite length_take. apply Nat.ltb_lt in H0. lia.
Qed.

(** X22. [cleanup] signals process groups only, never a single process and
    never group 0: every signal goes to the negated pid of a tracked child
    that has a pid and is not marked killed, and every such child gets
    one. *)
Theorem cleanup_signals_groups killFails children :
  Forall (fun o => ∃ c p, c ∈ children ∧ pid c = Some p ∧ p ≠ 0%N
                          ∧ killed c = false
                          ∧ o = Signal (- Z.of_N p) (killFails (- Z.of_N p))
                          ∧ - Z.of_N p < 0)
         (cleanup killFails children)
  ∧ (∀ c p, c ∈ children → pid c = Some p → p ≠ 0%N → killed c = false →
       Signal (- Z.of_N p) (killFails (- Z.of_N p))
       ∈ cleanup killFails children).
Proof.
  unfold cleanup. split.
  - apply Forall_forall. intros o Hin.
    apply list_elem_of_In, in_flat_map in Hin as (c & Hc & Ho).
    apply list_elem_of_In in Hc. destruct (pid c) as [p|] eqn:Hp; [|done].
    destruct (N.eqb_spec p 0); cbn [negb andb] in Ho; [done|].
    destruct (killed c) eqn:Hk; cbn [negb] in Ho; [done|].
    destruct Ho as [<-|[]]. exists c, p. split_and!; try done. lia.
  - intros c p Hc Hp Hne Hk.
    apply list_elem_of_In, in_flat_map. exists c. split; [by apply list_elem_of_In|].
    rewrite Hp, Hk. destruct (N.eqb_spec p 0); [done|]. by left.
Qed.
